(** * url_check: the reachability classifier [check_url]

    A shallow embedding of [url_checker.py].  The module has one function,
    [check_url], which parses its argument with [urllib.parse.urlparse],
    issues one [requests.get] and maps the response, or the exception the
    call raised, to a pair [(bool, str)].

    The two library calls are the only contact with the outside world; they
    are fields of a record [World], so every theorem below holds whatever
    the parser and the network answer.  [str.lower] is the interpreter's
    and is a field of [World] too, known by what it does to ASCII text.
    Python's [try]/[except] is modelled by an error monad that also keeps
    the trace of library calls, so that "no request was sent" is a
    statement about the trace. *)

From Stdlib Require Import ZArith Ascii DecimalString.
From Stdlib Require DecimalPos DecimalZ.
From stdpp Require Import base option list gmap strings.

Local Open Scope string_scope.
Local Open Scope Z_scope.

(** ** Python strings

    A [str] value is the string of its UTF-8 bytes; the ASCII characters
    are the bytes below 128, and a substring test on the characters is the
    same test on the bytes.  [str.lower] is the interpreter's and follows
    the Unicode tables: it is a field of [World] below.  [ascii_lower] is
    what it does to ASCII text, folding A-Z and nothing else. *)
Module PyStr.

Definition truthy (s : string) : bool :=
  match s with
  | EmptyString => false
  | String _ _ => true
  end.

Definition lower_ascii (c : ascii) : ascii :=
  let n := nat_of_ascii c in
  if (65 <=? n)%nat && (n <=? 90)%nat then ascii_of_nat (n + 32) else c.

Fixpoint ascii_lower (s : string) : string :=
  match s with
  | EmptyString => EmptyString
  | String c s' => String (lower_ascii c) (ascii_lower s')
  end.

Fixpoint is_ascii (s : string) : bool :=
  match s with
  | EmptyString => true
  | String c s' => (nat_of_ascii c <? 128)%nat && is_ascii s'
  end.

Fixpoint startswith (s p : string) : bool :=
  match p, s with
  | EmptyString, _ => true
  | String _ _, EmptyString => false
  | String a p', String b s' => if Ascii.eqb a b then startswith s' p' else false
  end.

(** [sub in s] on strings. *)
Fixpoint str_in (sub s : string) : bool :=
  if startswith s sub then true
  else match s with
       | EmptyString => false
       | String _ s' => str_in sub s'
       end.

(** [sub] occurs somewhere in [s]. *)
Definition Contains (sub s : string) : Prop :=
  ∃ before after, s = before +:+ sub +:+ after.

(** [str(n)] for an [int], which is also what an f-string field prints. *)
Definition str_int (n : Z) : string :=
  NilZero.string_of_int (Z.to_int n).

End PyStr.
Export PyStr.

(** ** Exceptions

    The classes of [requests.exceptions] with the built-in classes they
    derive from.  [bases] lists the direct superclasses among these, in the
    order of the class statement; [issubclass] is its reflexive transitive
    closure, so [isinstance] is the test an [except] clause makes.  All
    of them derive from [Exception]: the interpreter's own signals
    ([KeyboardInterrupt], [SystemExit]) are not results of a library call
    and are not modelled. *)
Module Exc.

Inductive exn_class : Set :=
  | Exception
  | OSError
  | ValueError
  | TypeError
  | UnicodeError
  | RequestException
  | InvalidJSONError
  | HTTPError
  | ConnectionError
  | ProxyError
  | SSLError
  | Timeout
  | ConnectTimeout
  | ReadTimeout
  | URLRequired
  | TooManyRedirects
  | MissingSchema
  | InvalidSchema
  | InvalidURL
  | InvalidHeader
  | InvalidProxyURL
  | ChunkedEncodingError
  | ContentDecodingError
  | StreamConsumedError
  | RetryError
  | UnrewindableBodyError.

#[global] Instance exn_class_eq_dec : EqDecision exn_class.
Proof. solve_decision. Defined.

Definition bases (c : exn_class) : list exn_class :=
  match c with
  | Exception => []
  | OSError | ValueError | TypeError => [Exception]
  | UnicodeError => [ValueError]
  | RequestException => [OSError]
  | InvalidJSONError | HTTPError | ConnectionError | Timeout
  | URLRequired | TooManyRedirects | ChunkedEncodingError
  | ContentDecodingError | RetryError | UnrewindableBodyError => [RequestException]
  | ProxyError | SSLError => [ConnectionError]
  | ConnectTimeout => [ConnectionError; Timeout]
  | ReadTimeout => [Timeout]
  | MissingSchema | InvalidSchema | InvalidURL | InvalidHeader =>
      [RequestException; ValueError]
  | InvalidProxyURL => [InvalidURL]
  | StreamConsumedError => [RequestException; TypeError]
  end.

Fixpoint issubclass_upto (depth : nat) (c d : exn_class) : bool :=
  bool_decide (c = d) ||
  match depth with
  | O => false
  | S depth' => existsb (λ b, issubclass_upto depth' b d) (bases c)
  end.

(** No chain of [bases] is longer than five classes. *)
Definition issubclass : exn_class → exn_class → bool := issubclass_upto 6.

(** An exception object: its class and what [str(e)] gives. *)
Record exn : Set := mkExn { class_of : exn_class; str : string }.

Definition isinstance (e : exn) (c : exn_class) : bool :=
  issubclass (class_of e) c.

End Exc.
Export Exc.

(** ** Values exchanged with the libraries *)

(** The six fields of [urllib.parse.ParseResult]. *)
Record ParseResult : Set := mkParseResult {
  scheme : string;
  netloc : string;
  path : string;
  params : string;
  query : string;
  fragment : string
}.

(** The keyword arguments [check_url] passes to [requests.get]. *)
Record Request : Type := mkRequest {
  req_url : string;
  req_timeout : Z;
  req_allow_redirects : bool;
  req_headers : gmap string string
}.

(** The attributes of [requests.Response] that [check_url] reads.
    [history] holds the responses of the redirects that were followed. *)
Module Resp.

#[warnings="-register-all"]
Inductive Response : Set :=
  mkResponse { status_code : Z; url : string; history : list Response }.

End Resp.
Export Resp.

(** ** The monad: results or a raised exception, and the trace of calls *)
Module Py.

Inductive res (A : Type) : Type :=
  | Val (a : A)
  | Raise (e : exn).
Arguments Val {A} a.
Arguments Raise {A} e.

Inductive event : Type :=
  | Parsed (s : string)
  | Sent (r : Request).

Definition M (A : Type) : Type := list event → res A * list event.

Definition ret {A} (a : A) : M A := λ tr, (Val a, tr).

Definition bind {A B} (m : M A) (k : A → M B) : M B :=
  λ tr, match m tr with
        | (Val a, tr') => k a tr'
        | (Raise e, tr') => (Raise e, tr')
        end.

(** [try: body  except C1 as e: h1  except C2 as e: h2 ...]: the first
    clause whose class the exception is an instance of handles it; with no
    such clause the exception goes on to the caller. *)
Definition try_except {A} (body : M A)
    (clauses : list (exn_class * (exn → M A))) : M A :=
  λ tr, match body tr with
        | (Val a, tr') => (Val a, tr')
        | (Raise e, tr') =>
            match find (λ cl, isinstance e cl.1) clauses with
            | Some cl => cl.2 e tr'
            | None => (Raise e, tr')
            end
        end.

(** A call of the function from the empty trace. *)
Definition run {A} (m : M A) : res A * list event := m [].

End Py.
Export Py.

Notation "'let!' x ':=' m 'in' k" := (bind m (λ x, k))
  (at level 10, x name, m at level 100, k at level 200).

(** The outside world: what [urlparse] makes of a string, what
    [requests.get] answers to a request, and what [str.lower] makes of a
    text.  Of [str.lower] only this is fixed: a run of ASCII characters is
    folded where it stands, whatever is around it, and nothing is put
    before a run that starts the text or after one that ends it.  What
    becomes of the other characters (the Kelvin sign becomes [k], a capital
    sigma depends on its neighbours) is left to the world. *)
Record World : Type := mkWorld {
  urlparse : string → res ParseResult;
  requests_get : Request → res Response;
  lower : string → string;
  lower_in_place : ∀ before text after,
    is_ascii text = true →
    ∃ before' after',
      lower (before +:+ text +:+ after) =
        before' +:+ ascii_lower text +:+ after' ∧
      (before = "" → before' = "") ∧ (after = "" → after' = "")
}.

Definition call_urlparse (w : World) (s : string) : M ParseResult :=
  λ tr, (urlparse w s, (tr ++ [Parsed s])%list).

Definition call_requests_get (w : World) (r : Request) : M Response :=
  λ tr, (requests_get w r, (tr ++ [Sent r])%list).

(** ** [check_url] *)

Definition browser_agent : string :=
  "Mozilla/5.0 (Windows NT 10.0; Win64; x64) AppleWebKit/537.36 (KHTML, like Gecko) Chrome/120.0.0.0 Safari/537.36".

(** The headers of the request: [{}], with the [User-Agent] entry set when
    [use_browser_agent] is true. *)
Definition make_headers (use_browser_agent : bool) : gmap string string :=
  let headers := ∅ in
  if use_browser_agent then <["User-Agent" := browser_agent]> headers
  else headers.

(** The first [try] block.  [Some r] is a [return r] of the function,
    [None] is leaving the block by its end. *)
Definition validate (w : World) (url : string) : M (option (bool * string)) :=
  try_except
    (let! parsed := call_urlparse w url in
     if negb (truthy (scheme parsed)) then
       ret (Some (false, "Invalid URL: Missing protocol (http:// or https://)"))
     else if negb (truthy (netloc parsed)) then
       ret (Some (false, "Invalid URL: Malformed URL format"))
     else if negb (bool_decide (scheme parsed ∈ ["http"; "https"])) then
       ret (Some (false, "Invalid URL: Unsupported protocol '" +:+ scheme parsed +:+ "'"))
     else ret None)
    [ (Exception, λ e, ret (Some (false, "Invalid URL format: " +:+ str e))) ].

(** The second [try] block; every path through it returns. *)
Definition fetch (w : World) (url : string) (timeout : Z)
    (headers : gmap string string) : M (bool * string) :=
  try_except
    (let! response := call_requests_get w (mkRequest url timeout true headers) in
     if negb (bool_decide (history response = [])) then
       let final_url := Resp.url response in
       ret (true, "Redirects to " +:+ final_url)
     else if status_code response =? 404 then
       ret (false, "404 Not Found")
     else if (400 <=? status_code response) && (status_code response <? 600) then
       ret (false, "HTTP " +:+ str_int (status_code response) +:+ " error")
     else
       ret (true, "URL is accessible"))
    [ (Timeout, λ _,
        ret (false, "Connection timeout: Request took too long to respond"));
      (ConnectionError, λ e,
        let error_msg := lower w (str e) in
        if str_in "nodename nor servname provided" error_msg
           || str_in "name or service not known" error_msg
           || str_in "getaddrinfo failed" error_msg then
          ret (false, "DNS resolution failed: Unable to resolve domain name")
        else if str_in "connection refused" error_msg then
          ret (false, "Connection refused: Server is not accepting connections")
        else
          ret (false, "Network connection error: Unable to connect to server"));
      (TooManyRedirects, λ _, ret (false, "Too many redirects"));
      (RequestException, λ e, ret (false, "Request error: " +:+ str e));
      (Exception, λ e, ret (false, "Unexpected error: " +:+ str e)) ].

Definition check_url (w : World) (url : string) (timeout : Z)
    (use_browser_agent : bool) : M (bool * string) :=
  let! early := validate w url in
  match early with
  | Some r => ret r
  | None =>
      let headers := make_headers use_browser_agent in
      fetch w url timeout headers
  end.

(** ** Vocabulary of the statements *)

(** The request [check_url] sends for its arguments. *)
Definition request_of (url : string) (timeout : Z) (use_browser_agent : bool)
    : Request :=
  mkRequest url timeout true (make_headers use_browser_agent).

(** The input passes the validation block: it parses, the scheme is
    [http] or [https] and there is a host part. *)
Definition well_formed (w : World) (url : string) : Prop :=
  ∃ p, urlparse w url = Val p ∧ scheme p ∈ ["http"; "https"] ∧ netloc p ≠ "".

Definition sends (tr : list event) : list Request :=
  omap (λ ev, match ev with Sent r => Some r | Parsed _ => None end) tr.

(** The lowered message names a failed name lookup. *)
Definition names_dns_failure (error_msg : string) : bool :=
  str_in "nodename nor servname provided" error_msg
  || str_in "name or service not known" error_msg
  || str_in "getaddrinfo failed" error_msg.

(** The request was answered, after a redirect or with a status outside
    the error range. *)
Definition answered_ok (w : World) (r : Request) : Prop :=
  ∃ resp, requests_get w r = Val resp ∧
    (history resp ≠ [] ∨ ¬ (400 ≤ status_code resp < 600)).

(** The branches of [check_url]: which pair is returned, and what the
    parser and the network did for the function to get there. *)
Inductive Branch (w : World) (url : string) (timeout : Z)
    (use_browser_agent : bool) : bool * string → Prop :=
  | parse_failed e :
      urlparse w url = Raise e →
      Branch w url timeout use_browser_agent
        (false, "Invalid URL format: " +:+ str e)
  | missing_protocol p :
      urlparse w url = Val p → scheme p = "" →
      Branch w url timeout use_browser_agent
        (false, "Invalid URL: Missing protocol (http:// or https://)")
  | malformed p :
      urlparse w url = Val p → scheme p ≠ "" → netloc p = "" →
      Branch w url timeout use_browser_agent
        (false, "Invalid URL: Malformed URL format")
  | unsupported_protocol p :
      urlparse w url = Val p → scheme p ≠ "" → netloc p ≠ "" →
      scheme p ∉ ["http"; "https"] →
      Branch w url timeout use_browser_agent
        (false, "Invalid URL: Unsupported protocol '" +:+ scheme p +:+ "'")
  | redirected resp :
      well_formed w url →
      requests_get w (request_of url timeout use_browser_agent) = Val resp →
      history resp ≠ [] →
      Branch w url timeout use_browser_agent
        (true, "Redirects to " +:+ Resp.url resp)
  | not_found resp :
      well_formed w url →
      requests_get w (request_of url timeout use_browser_agent) = Val resp →
      history resp = [] → status_code resp = 404 →
      Branch w url timeout use_browser_agent (false, "404 Not Found")
  | http_error resp :
      well_formed w url →
      requests_get w (request_of url timeout use_browser_agent) = Val resp →
      history resp = [] → status_code resp ≠ 404 →
      400 ≤ status_code resp < 600 →
      Branch w url timeout use_browser_agent
        (false, "HTTP " +:+ str_int (status_code resp) +:+ " error")
  | accessible resp :
      well_formed w url →
      requests_get w (request_of url timeout use_browser_agent) = Val resp →
      history resp = [] → ¬ (400 ≤ status_code resp < 600) →
      Branch w url timeout use_browser_agent (true, "URL is accessible")
  | timed_out e :
      well_formed w url →
      requests_get w (request_of url timeout use_browser_agent) = Raise e →
      isinstance e Timeout = true →
      Branch w url timeout use_browser_agent
        (false, "Connection timeout: Request took too long to respond")
  | dns_failed e :
      well_formed w url →
      requests_get w (request_of url timeout use_browser_agent) = Raise e →
      isinstance e Timeout = false → isinstance e ConnectionError = true →
      names_dns_failure (lower w (str e)) = true →
      Branch w url timeout use_browser_agent
        (false, "DNS resolution failed: Unable to resolve domain name")
  | refused e :
      well_formed w url →
      requests_get w (request_of url timeout use_browser_agent) = Raise e →
      isinstance e Timeout = false → isinstance e ConnectionError = true →
      names_dns_failure (lower w (str e)) = false →
      str_in "connection refused" (lower w (str e)) = true →
      Branch w url timeout use_browser_agent
        (false, "Connection refused: Server is not accepting connections")
  | unreachable e :
      well_formed w url →
      requests_get w (request_of url timeout use_browser_agent) = Raise e →
      isinstance e Timeout = false → isinstance e ConnectionError = true →
      names_dns_failure (lower w (str e)) = false →
      str_in "connection refused" (lower w (str e)) = false →
      Branch w url timeout use_browser_agent
        (false, "Network connection error: Unable to connect to server")
  | redirect_limit e :
      well_formed w url →
      requests_get w (request_of url timeout use_browser_agent) = Raise e →
      isinstance e Timeout = false → isinstance e ConnectionError = false →
      isinstance e TooManyRedirects = true →
      Branch w url timeout use_browser_agent (false, "Too many redirects")
  | request_error e :
      well_formed w url →
      requests_get w (request_of url timeout use_browser_agent) = Raise e →
      isinstance e Timeout = false → isinstance e ConnectionError = false →
      isinstance e TooManyRedirects = false →
      isinstance e RequestException = true →
      Branch w url timeout use_browser_agent
        (false, "Request error: " +:+ str e)
  | unexpected_error e :
      well_formed w url →
      requests_get w (request_of url timeout use_browser_agent) = Raise e →
      isinstance e RequestException = false →
      Branch w url timeout use_browser_agent
        (false, "Unexpected error: " +:+ str e).

(** ** The test module

    The tests of [test_url_checker.py] that assert more than the type of
    the explanation.  Each calls [check_url] with the default [timeout=5]
    and [use_browser_agent=False], or with the flag it names, and returns
    whether all its assertions hold. *)
Module Tests.

(** [any(keyword in text for keyword in keywords)]. *)
Definition any_in (keywords : list string) (text : string) : bool :=
  existsb (λ keyword, str_in keyword text) keywords.

Definition test_valid_url_returns_true (w : World) : M bool :=
  let! r := check_url w "https://www.google.com" 5 false in
  let '(result, explanation) := r in
  ret (Bool.eqb result true).

Definition test_404_not_found_returns_false (w : World) : M bool :=
  let! r := check_url w "https://www.google.com/this-page-does-not-exist-404" 5 false in
  let '(result, explanation) := r in
  ret (Bool.eqb result false
       && (str_in "404" explanation || str_in "not found" (lower w explanation))).

Definition test_invalid_url_format_returns_false (w : World) : M bool :=
  let! r := check_url w "not-a-valid-url" 5 false in
  let '(result, explanation) := r in
  ret (Bool.eqb result false
       && (str_in "invalid" (lower w explanation)
           || str_in "malformed" (lower w explanation))).

Definition test_missing_protocol_returns_false (w : World) : M bool :=
  let! r := check_url w "www.google.com" 5 false in
  let '(result, explanation) := r in
  ret (Bool.eqb result false
       && (str_in "invalid" (lower w explanation)
           || str_in "protocol" (lower w explanation))).

Definition test_connection_timeout_returns_false (w : World) : M bool :=
  let! r := check_url w "http://10.255.255.1" 5 false in
  let '(result, explanation) := r in
  ret (Bool.eqb result false
       && (str_in "timeout" (lower w explanation)
           || str_in "connect" (lower w explanation))).

Definition test_network_error_dns_failure (w : World) : M bool :=
  let! r := check_url w "https://this-domain-does-not-exist-12345.com" 5 false in
  let '(result, explanation) := r in
  ret (Bool.eqb result false
       && any_in ["dns"; "resolve"; "network"; "connection"] (lower w explanation)).

Definition test_redirect_returns_true_with_target_url (w : World) : M bool :=
  let! r := check_url w "https://azure.microsoft.com/" 5 false in
  let '(result, explanation) := r in
  ret (Bool.eqb result true
       && (str_in "redirect" (lower w explanation)
           || str_in "https://azure.microsoft.com/" (lower w explanation))
       && str_in "http" explanation).

Definition test_redirect_http_to_https (w : World) : M bool :=
  let! r := check_url w "http://github.com" 5 false in
  let '(result, explanation) := r in
  ret (Bool.eqb result true
       && (str_in "redirect" (lower w explanation)
           || str_in "https://github.com" (lower w explanation))).

Definition test_connection_refused_returns_false (w : World) : M bool :=
  let! r := check_url w "http://localhost:9999" 5 false in
  let '(result, explanation) := r in
  ret (Bool.eqb result false
       && any_in ["connection"; "refused"; "connect"] (lower w explanation)).



(** The test ran to its end and every assertion held. *)
Definition passes (test : M bool) : Prop := (run test).1 = Val true.

End Tests.

(** The decimal digits of a three-digit number, by division. *)
Definition digit (d : Z) : ascii :=
  match d with
  | 0 => "0" | 1 => "1" | 2 => "2" | 3 => "3" | 4 => "4"
  | 5 => "5" | 6 => "6" | 7 => "7" | 8 => "8" | _ => "9"
  end%char.

Definition three_digits (n : Z) : string :=
  String (digit (n / 100))
    (String (digit (n / 10 mod 10)) (String (digit (n mod 10)) EmptyString)).

(** The [User-Agent] a server sees: the entry of the headers the caller
    passed, else the agent the client names by itself. *)
Definition agent_sent (default_agent : string) (r : Request) : string :=
  default default_agent (req_headers r !! "User-Agent").

(** ** A sample world

    A small parser and a table of answers, to run [check_url] on concrete
    inputs.  The parser is a stand-in for [urlparse] that splits off
    [scheme:] and [//netloc] and rejects an unbalanced bracket the way the
    library does; the theorems do not depend on it. *)
Module Sample.

Fixpoint split_first (c : ascii) (s : string) : option (string * string) :=
  match s with
  | EmptyString => None
  | String a s' =>
      if Ascii.eqb a c then Some (EmptyString, s')
      else match split_first c s' with
           | Some (l, r) => Some (String a l, r)
           | None => None
           end
  end.

Fixpoint authority (s : string) : string * string :=
  match s with
  | EmptyString => (EmptyString, EmptyString)
  | String a s' =>
      if Ascii.eqb a "/" || Ascii.eqb a "?" || Ascii.eqb a "#"
      then (EmptyString, s)
      else let '(l, r) := authority s' in (String a l, r)
  end.

Definition parse (u : string) : res ParseResult :=
  let '(sch, rest) :=
    match split_first ":" u with
    | Some (String a l, r) => (ascii_lower (String a l), r)
    | _ => (EmptyString, u)
    end in
  match rest with
  | String "/" (String "/" rest') =>
      let '(loc, rest'') := authority rest' in
      if xorb (str_in "[" loc) (str_in "]" loc)
      then Raise (mkExn ValueError "Invalid IPv6 URL")
      else Val (mkParseResult sch loc rest'' "" "" "")
  | _ => Val (mkParseResult sch "" rest "" "" "")
  end.

Definition moved : Response :=
  mkResponse 301 "http://github.com/" [].

Definition answers : list (string * res Response) :=
  [ ("https://example.com/", Val (mkResponse 200 "https://example.com/" []));
    ("https://example.com/missing", Val (mkResponse 404 "https://example.com/missing" []));
    ("https://example.com/forbidden", Val (mkResponse 403 "https://example.com/forbidden" []));
    ("https://example.com/broken", Val (mkResponse 500 "https://example.com/broken" []));
    ("https://example.com/cached", Val (mkResponse 304 "https://example.com/cached" []));
    ("http://github.com", Val (mkResponse 200 "https://github.com/" [moved]));
    ("http://github.com/gone", Val (mkResponse 404 "https://github.com/gone" [moved]));
    ("http://10.255.255.1",
       Raise (mkExn ConnectTimeout
         "HTTPConnectionPool(host='10.255.255.1', port=80): Max retries exceeded (connect timeout=5)"));
    ("https://slow.example.com/",
       Raise (mkExn ReadTimeout
         "HTTPSConnectionPool(host='slow.example.com', port=443): Read timed out. (read timeout=5)"));
    ("https://this-domain-does-not-exist-12345.com",
       Raise (mkExn ConnectionError
         "HTTPSConnectionPool(host='this-domain-does-not-exist-12345.com', port=443): Max retries exceeded (Caused by NameResolutionError: [Errno -2] Name or service not known)"));
    ("http://localhost:9999",
       Raise (mkExn ConnectionError
         "HTTPConnectionPool(host='localhost', port=9999): Max retries exceeded (Caused by NewConnectionError: [Errno 111] Connection refused)"));
    ("https://expired.example.com/",
       Raise (mkExn SSLError
         "HTTPSConnectionPool(host='expired.example.com', port=443): Max retries exceeded (Caused by SSLError: certificate has expired)"));
    ("http://loop.example.com/",
       Raise (mkExn TooManyRedirects "Exceeded 30 redirects."));
    ("http://example.com/truncated",
       Raise (mkExn ChunkedEncodingError "Connection broken: IncompleteRead"));
    ("http://example.com:bad/",
       Raise (mkExn ValueError "invalid literal for int() with base 10: 'bad'")) ].

Definition get (r : Request) : res Response :=
  match find (λ a, String.eqb a.1 (req_url r)) answers with
  | Some a => a.2
  | None => Raise (mkExn ConnectionError "Network is unreachable")
  end.

(** Folding the ASCII capitals and nothing else is one [lower] a world
    can have. *)
Definition ascii_lower_in_place (before text after : string) :
  is_ascii text = true →
  ∃ before' after',
    ascii_lower (before +:+ text +:+ after) =
      before' +:+ ascii_lower text +:+ after' ∧
    (before = "" → before' = "") ∧ (after = "" → after' = "").
Proof.
  intros _. exists (ascii_lower before), (ascii_lower after).
  assert (∀ s p, ascii_lower (s +:+ p) = ascii_lower s +:+ ascii_lower p)
    as Happ.
  { induction s as [|c s IH]; intros p; [reflexivity|].
    change (String c s +:+ p) with (String c (s +:+ p)).
    simpl. by rewrite IH. }
  rewrite !Happ. split; [reflexivity|]. by split; intros ->.
Qed.

Definition world : World := mkWorld parse get ascii_lower ascii_lower_in_place.

End Sample.


(** A server that turns the client's own agent away, as the site of the
    last two tests does. *)
Module Guarded.

(** The agent the client names when the caller gives none. *)
Definition default_agent : string := "python-requests/2.31.0".

Definition get (r : Request) : res Response :=
  if str_in "python-requests" (agent_sent default_agent r)
  then Val (mkResponse 403 (req_url r) [])
  else Val (mkResponse 200 (req_url r) []).

Definition world : World :=
  mkWorld Sample.parse get ascii_lower Sample.ascii_lower_in_place.

End Guarded.

(** A world whose [lower] knows one character beyond ASCII: the Kelvin
    sign, U+212A, three bytes in UTF-8, becomes [k] as the Unicode tables
    have it.  Its network fails with a name-lookup text spelt with that
    sign. *)
Module Kelvin.

Definition kelvin_sign : string :=
  String "226" (String "132" (String "170" EmptyString)).

Fixpoint lower (s : string) : string :=
  match s with
  | EmptyString => EmptyString
  | String a s1 =>
      match s1 with
      | String b (String c rest) =>
          if Ascii.eqb a "226" && Ascii.eqb b "132" && Ascii.eqb c "170"
          then String "k" (lower rest)
          else String (lower_ascii a) (lower s1)
      | _ => String (lower_ascii a) (lower s1)
      end
  end.

Definition lower_in_place (before text after : string) :
  is_ascii text = true →
  ∃ before' after',
    lower (before +:+ text +:+ after) =
      before' +:+ ascii_lower text +:+ after' ∧
    (before = "" → before' = "") ∧ (after = "" → after' = "").
Proof.
  assert (∀ c s p, String c s +:+ p = String c (s +:+ p)) as Hcons by done.
  assert (∀ s, s +:+ "" = s) as Hnil.
  { induction s as [|c s IH]; [done|]. by rewrite Hcons, IH. }
  assert (∀ t, (nat_of_ascii t <? 128)%nat = true →
            Ascii.eqb t "226" = false ∧ Ascii.eqb t "132" = false ∧
            Ascii.eqb t "170" = false) as Hlow.
  { intros t Ht. repeat split; apply Ascii.eqb_neq; intros ->; discriminate Ht. }
  assert (∀ txt rest, is_ascii txt = true →
            lower (txt +:+ rest) = ascii_lower txt +:+ lower rest) as Hhead.
  { induction txt as [|a txt IH]; [done|]. simpl is_ascii.
    intros rest [Ha Htxt]%andb_true_iff. rewrite Hcons.
    change (ascii_lower (String a txt))
      with (String (lower_ascii a) (ascii_lower txt)).
    rewrite Hcons, <- (IH rest Htxt). destruct (Hlow a Ha) as (Hne & _).
    simpl. rewrite Hne. simpl. by repeat case_match. }
  assert (∀ n front t rest, (String.length front ≤ n)%nat →
            (nat_of_ascii t <? 128)%nat = true →
            ∃ front', lower (front +:+ String t rest) =
                        front' +:+ lower (String t rest) ∧
                      (front = "" → front' = "")) as Hfront.
  { induction n as [|n IH]; intros front t rest Hlen Ht.
    { destruct front; [|simpl in Hlen; lia]. by exists "". }
    destruct (Hlow t Ht) as (_ & Ht132 & Ht170).
    destruct front as [|a [|b [|c front]]].
    - by exists "".
    - exists (String (lower_ascii a) ""). split; [|done].
      rewrite !Hcons. change ("" +:+ String t rest) with (String t rest).
      destruct rest as [|c rest]; [done|].
      change (lower (String a (String t (String c rest))))
        with (if Ascii.eqb a "226" && Ascii.eqb t "132" && Ascii.eqb c "170"
              then String "k" (lower rest)
              else String (lower_ascii a) (lower (String t (String c rest)))).
      by rewrite Ht132, andb_false_r.
    - destruct (IH (String b "") t rest) as (front' & Heq & _);
        [simpl in *; lia | done |].
      exists (String (lower_ascii a) front'). split; [|done].
      rewrite !Hcons in *. change ("" +:+ String t rest) with (String t rest) in *.
      change (lower (String a (String b (String t rest))))
        with (if Ascii.eqb a "226" && Ascii.eqb b "132" && Ascii.eqb t "170"
              then String "k" (lower rest)
              else String (lower_ascii a) (lower (String b (String t rest)))).
      by rewrite Ht170, andb_false_r, Heq.
    - rewrite !Hcons.
      change (lower (String a (String b (String c (front +:+ String t rest)))))
        with (if Ascii.eqb a "226" && Ascii.eqb b "132" && Ascii.eqb c "170"
              then String "k" (lower (front +:+ String t rest))
              else String (lower_ascii a)
                     (lower (String b (String c (front +:+ String t rest))))).
      destruct (Ascii.eqb a "226" && Ascii.eqb b "132" && Ascii.eqb c "170").
      + destruct (IH front t rest) as (front' & -> & _);
          [simpl in *; lia | done |].
        by exists (String "k" front').
      + destruct (IH (String b (String c front)) t rest) as (front' & Heq & _);
          [simpl in *; lia | done |].
        rewrite !Hcons in Heq. rewrite Heq.
        by exists (String (lower_ascii a) front'). }
  intros Htext. destruct text as [|t text].
  - destruct before as [|a before].
    + exists "", (lower after). split; [done|]. split; [done|]. by intros ->.
    + exists (lower (String a before +:+ after)), "".
      change ("" +:+ after) with after. by rewrite Hnil.
  - simpl in Htext. apply andb_true_iff in Htext as [Ht Htext].
    destruct (Hfront (String.length before) before t (text +:+ after))
      as (before' & Heq & Hbefore); [done..|].
    exists before', (lower after). rewrite Hcons, Heq, <- Hcons.
    rewrite Hhead by (simpl; by rewrite Ht, Htext).
    split; [done|]. split; [done|]. by intros ->.
Qed.

Definition error : exn :=
  mkExn ConnectionError
    ("HTTPSConnectionPool(host='nx.example.com', port=443): Max retries exceeded (Caused by NameResolutionError: [Errno -2] Name or service not "
     +:+ kelvin_sign +:+ "nown)").

Definition get (r : Request) : res Response := Raise error.

Definition world : World := mkWorld Sample.parse get lower lower_in_place.

End Kelvin.

(** * Properties *)

(** ** Strings *)
Section strings.

Implicit Types s p sub : string.

Lemma truthy_false s : truthy s = false ↔ s = "".
Proof. destruct s; simpl; split; intros; congruence. Qed.

Lemma truthy_true s : truthy s = true ↔ s ≠ "".
Proof. destruct s; simpl; split; intros; congruence. Qed.

Lemma append_nil s : "" +:+ s = s.
Proof. reflexivity. Qed.

Lemma append_cons c s p : String c s +:+ p = String c (s +:+ p).
Proof. reflexivity. Qed.

Lemma startswith_spec s p : startswith s p = true ↔ ∃ rest, s = p +:+ rest.
Proof.
  revert s; induction p as [|a p IH]; intros s.
  - destruct s; (split; [intros _; eexists; reflexivity | reflexivity]).
  - destruct s as [|b s]; simpl.
    + split; [done | intros [rest Hrest]; discriminate].
    + setoid_rewrite append_cons.
      destruct (Ascii.eqb_spec a b) as [->|Hab].
      * rewrite (IH s). split; intros [rest Hrest]; exists rest; congruence.
      * split; [done | intros [rest Hrest]; congruence].
Qed.

Lemma startswith_Contains sub s : startswith s sub = true → Contains sub s.
Proof.
  intros [rest ->]%startswith_spec. exists "", rest. by rewrite append_nil.
Qed.

Lemma str_in_unfold sub s :
  str_in sub s =
  if startswith s sub then true
  else match s with
       | EmptyString => false
       | String _ s' => str_in sub s'
       end.
Proof. by destruct s. Qed.

Lemma str_in_spec sub s : str_in sub s = true ↔ Contains sub s.
Proof.
  induction s as [|c s IH]; rewrite str_in_unfold.
  - destruct (startswith "" sub) eqn:Hsw.
    + split; [intros _; by apply startswith_Contains | done].
    + split; [done|]. intros [before [after Heq]].
      destruct before; [|discriminate]. rewrite append_nil in Heq.
      assert (startswith "" sub = true) by (apply startswith_spec; eauto).
      congruence.
  - destruct (startswith (String c s) sub) eqn:Hsw.
    + split; [intros _; by apply startswith_Contains | done].
    + rewrite IH. split.
      * intros [before [after ->]]. by exists (String c before), after.
      * intros [before [after Heq]]. destruct before as [|b before].
        -- rewrite append_nil in Heq.
           assert (startswith (String c s) sub = true)
             by (apply startswith_spec; eauto).
           congruence.
        -- rewrite append_cons in Heq. injection Heq as _ Heq.
           by exists before, after.
Qed.

Lemma append_nil_r s : s +:+ "" = s.
Proof. induction s as [|c s IH]; [done|]. by rewrite append_cons, IH. Qed.

Lemma app_nonempty p s : p ≠ "" → p +:+ s ≠ "".
Proof. destruct p; [done | discriminate]. Qed.

End strings.

(** ** What is known of [str.lower] *)
Section lower.

Context (w : World).

(** On ASCII text [lower] is the fold of the capitals. *)
Lemma lower_ascii_text s : is_ascii s = true → lower w s = ascii_lower s.
Proof.
  intros Hs.
  destruct (lower_in_place w "" s "" Hs) as (before' & after' & Heq & Hb & Ha).
  rewrite append_nil, append_nil_r in Heq.
  by rewrite Heq, (Hb eq_refl), (Ha eq_refl), append_nil, append_nil_r.
Qed.

(** An ASCII head of a text is folded where it stands. *)
Lemma lower_ascii_prefix p s :
  is_ascii p = true → ∃ rest, lower w (p +:+ s) = ascii_lower p +:+ rest.
Proof.
  intros Hp.
  destruct (lower_in_place w "" p s Hp) as (before' & after' & Heq & Hb & _).
  rewrite append_nil in Heq. exists after'.
  by rewrite Heq, (Hb eq_refl), append_nil.
Qed.

(** An ASCII phrase without capitals found in a text is found in the
    lowered text too. *)
Lemma Contains_lower sub s :
  is_ascii sub = true → ascii_lower sub = sub →
  Contains sub s → Contains sub (lower w s).
Proof.
  intros Hascii Hsub [before [after ->]].
  destruct (lower_in_place w before sub after Hascii)
    as (before' & after' & Heq & _).
  exists before', after'. by rewrite Heq, Hsub.
Qed.

End lower.

(** ** The class hierarchy *)

Lemma issubclass_Exception c : issubclass c Exception = true.
Proof. by destruct c. Qed.

(** An [except Exception] clause handles whatever is raised. *)
Lemma isinstance_Exception e : isinstance e Exception = true.
Proof. apply issubclass_Exception. Qed.

(** Every timeout is a [RequestException]; of the timeouts, only
    [ConnectTimeout] is a [ConnectionError] as well. *)
Lemma timeout_classes c :
  issubclass c Timeout = true ↔ c = Timeout ∨ c = ConnectTimeout ∨ c = ReadTimeout.
Proof.
  destruct c; vm_compute;
    (split; [intros H; try discriminate H; auto
            | intros [H|[H|H]]; try discriminate H; reflexivity]).
Qed.

Lemma connection_error_classes c :
  issubclass c ConnectionError = true ↔
  c = ConnectionError ∨ c = ProxyError ∨ c = SSLError ∨ c = ConnectTimeout.
Proof.
  destruct c; vm_compute;
    (split; [intros H; try discriminate H; auto
            | intros [H|[H|[H|H]]]; try discriminate H; reflexivity]).
Qed.

(** ** The headers of the request *)

Lemma make_headers_plain : make_headers false = ∅.
Proof. reflexivity. Qed.

Lemma make_headers_browser :
  make_headers true !! "User-Agent" = Some browser_agent ∧
  dom (make_headers true) = {["User-Agent"]}.
Proof.
  unfold make_headers. split; [apply lookup_insert_eq|].
  by rewrite dom_insert_L, dom_empty_L, (right_id_L ∅ (∪)).
Qed.

(** ** The two blocks of [check_url] *)

Section blocks.

Context (w : World) (url : string).

Lemma scheme_supported_nonempty (p : ParseResult) :
  scheme p ∈ ["http"; "https"] → scheme p ≠ "".
Proof.
  intros Hin Hnil. rewrite Hnil in Hin.
  assert (bool_decide ("" ∈ ["http"; "https"]) = false) as Hdec by reflexivity.
  by apply bool_decide_eq_false_1 in Hdec.
Qed.

Lemma validate_raise e tr :
  urlparse w url = Raise e →
  validate w url tr =
    (Val (Some (false, "Invalid URL format: " +:+ str e)), (tr ++ [Parsed url])%list).
Proof.
  intros Hparse. unfold validate, try_except, bind, call_urlparse.
  rewrite Hparse. simpl. by rewrite isinstance_Exception.
Qed.

Lemma validate_no_scheme p tr :
  urlparse w url = Val p → scheme p = "" →
  validate w url tr =
    (Val (Some (false, "Invalid URL: Missing protocol (http:// or https://)")),
     (tr ++ [Parsed url])%list).
Proof.
  intros Hparse Hs. unfold validate, try_except, bind, call_urlparse.
  rewrite Hparse, Hs. reflexivity.
Qed.

Lemma validate_no_netloc p tr :
  urlparse w url = Val p → scheme p ≠ "" → netloc p = "" →
  validate w url tr =
    (Val (Some (false, "Invalid URL: Malformed URL format")),
     (tr ++ [Parsed url])%list).
Proof.
  intros Hparse Hs%truthy_true Hn. unfold validate, try_except, bind, call_urlparse.
  rewrite Hparse, Hs, Hn. reflexivity.
Qed.

Lemma validate_unsupported p tr :
  urlparse w url = Val p → scheme p ≠ "" → netloc p ≠ "" →
  scheme p ∉ ["http"; "https"] →
  validate w url tr =
    (Val (Some (false, "Invalid URL: Unsupported protocol '" +:+ scheme p +:+ "'")),
     (tr ++ [Parsed url])%list).
Proof.
  intros Hparse Hs%truthy_true Hn%truthy_true Hnotin.
  unfold validate, try_except, bind, call_urlparse.
  rewrite Hparse, Hs, Hn, (bool_decide_eq_false_2 _ Hnotin). reflexivity.
Qed.

Lemma validate_well_formed tr :
  well_formed w url → validate w url tr = (Val None, (tr ++ [Parsed url])%list).
Proof.
  intros (p & Hparse & Hin & Hn%truthy_true).
  pose proof (scheme_supported_nonempty p Hin) as Hs%truthy_true.
  unfold validate, try_except, bind, call_urlparse.
  rewrite Hparse, Hs, Hn, (bool_decide_eq_true_2 _ Hin). reflexivity.
Qed.

(** Whatever the parser does, the block ends normally, has called the
    parser and nothing else, and leaves by its end exactly on well-formed
    input; every [return] in it returns [False] with a message. *)
Lemma validate_total tr :
  ∃ early, validate w url tr = (Val early, (tr ++ [Parsed url])%list) ∧
    match early with
    | None => well_formed w url
    | Some r => ¬ well_formed w url ∧ r.1 = false ∧ r.2 ≠ ""
    end.
Proof.
  destruct (urlparse w url) as [p|e] eqn:Hparse.
  - destruct (decide (scheme p = "")) as [Hs|Hs].
    { eexists; split; [by eapply validate_no_scheme|]. simpl.
      split_and!; [|done..]. intros (p' & Hp' & Hin & _).
      assert (p' = p) as -> by congruence.
      by apply scheme_supported_nonempty in Hin. }
    destruct (decide (netloc p = "")) as [Hn|Hn].
    { eexists; split; [by eapply validate_no_netloc|]. simpl.
      split_and!; [|done..]. intros (p' & Hp' & _ & Hn').
      assert (p' = p) as -> by congruence. done. }
    destruct (decide (scheme p ∈ ["http"; "https"])) as [Hin|Hin].
    + eexists; split; [apply validate_well_formed|]; by exists p.
    + eexists; split; [by eapply validate_unsupported|]. simpl.
      split_and!; [|done|by apply app_nonempty].
      intros (p' & Hp' & Hin' & _).
      assert (p' = p) as -> by congruence. done.
  - eexists; split; [by eapply validate_raise|]. simpl.
    split_and!; [|done|by apply app_nonempty].
    intros (p' & Hp' & _). congruence.
Qed.

End blocks.

Lemma not_request_exception c :
  issubclass c RequestException = false →
  issubclass c Timeout = false ∧ issubclass c ConnectionError = false ∧
  issubclass c TooManyRedirects = false.
Proof. destruct c; vm_compute; intros H; try discriminate H; done. Qed.

Section fetch_block.

Context (w : World) (url : string) (timeout : Z) (headers : gmap string string).

Local Abbreviation req := (mkRequest url timeout true headers).

Ltac enter_fetch H :=
  unfold fetch, try_except, bind, call_requests_get; rewrite H; simpl.

Lemma fetch_redirect resp tr :
  requests_get w req = Val resp → history resp ≠ [] →
  fetch w url timeout headers tr =
    (Val (true, "Redirects to " +:+ Resp.url resp), (tr ++ [Sent req])%list).
Proof.
  intros Hget Hhist. enter_fetch Hget.
  by rewrite (bool_decide_eq_false_2 _ Hhist).
Qed.

Lemma fetch_404 resp tr :
  requests_get w req = Val resp → history resp = [] → status_code resp = 404 →
  fetch w url timeout headers tr =
    (Val (false, "404 Not Found"), (tr ++ [Sent req])%list).
Proof.
  intros Hget Hhist Hcode. enter_fetch Hget.
  by rewrite (bool_decide_eq_true_2 _ Hhist), Hcode.
Qed.

Lemma fetch_http_error resp tr :
  requests_get w req = Val resp → history resp = [] →
  status_code resp ≠ 404 → 400 ≤ status_code resp < 600 →
  fetch w url timeout headers tr =
    (Val (false, "HTTP " +:+ str_int (status_code resp) +:+ " error"),
     (tr ++ [Sent req])%list).
Proof.
  intros Hget Hhist Hcode [Hlo Hhi]. enter_fetch Hget.
  rewrite (bool_decide_eq_true_2 _ Hhist). simpl.
  apply Z.eqb_neq in Hcode. apply Z.leb_le in Hlo. apply Z.ltb_lt in Hhi.
  by rewrite Hcode, Hlo, Hhi.
Qed.

Lemma fetch_accessible resp tr :
  requests_get w req = Val resp → history resp = [] →
  ¬ (400 ≤ status_code resp < 600) →
  fetch w url timeout headers tr =
    (Val (true, "URL is accessible"), (tr ++ [Sent req])%list).
Proof.
  intros Hget Hhist Hcode. enter_fetch Hget.
  rewrite (bool_decide_eq_true_2 _ Hhist). simpl.
  destruct (Z.eqb_spec (status_code resp) 404) as [E|_]; [lia|].
  destruct (Z.leb_spec 400 (status_code resp));
    destruct (Z.ltb_spec (status_code resp) 600); simpl; (reflexivity || lia).
Qed.

Lemma fetch_timeout e tr :
  requests_get w req = Raise e → isinstance e Timeout = true →
  fetch w url timeout headers tr =
    (Val (false, "Connection timeout: Request took too long to respond"),
     (tr ++ [Sent req])%list).
Proof. intros Hget Ht. enter_fetch Hget. by rewrite Ht. Qed.

Lemma fetch_connection_error e tr :
  requests_get w req = Raise e →
  isinstance e Timeout = false → isinstance e ConnectionError = true →
  fetch w url timeout headers tr =
    (Val (if names_dns_failure (lower w (str e)) then
            (false, "DNS resolution failed: Unable to resolve domain name")
          else if str_in "connection refused" (lower w (str e)) then
            (false, "Connection refused: Server is not accepting connections")
          else
            (false, "Network connection error: Unable to connect to server")),
     (tr ++ [Sent req])%list).
Proof.
  intros Hget Ht Hc. enter_fetch Hget. rewrite Ht, Hc. simpl.
  unfold names_dns_failure, ret.
  by repeat destruct (str_in _ _).
Qed.

Lemma fetch_too_many_redirects e tr :
  requests_get w req = Raise e →
  isinstance e Timeout = false → isinstance e ConnectionError = false →
  isinstance e TooManyRedirects = true →
  fetch w url timeout headers tr =
    (Val (false, "Too many redirects"), (tr ++ [Sent req])%list).
Proof. intros Hget Ht Hc Hr. enter_fetch Hget. by rewrite Ht, Hc, Hr. Qed.

Lemma fetch_request_error e tr :
  requests_get w req = Raise e →
  isinstance e Timeout = false → isinstance e ConnectionError = false →
  isinstance e TooManyRedirects = false → isinstance e RequestException = true →
  fetch w url timeout headers tr =
    (Val (false, "Request error: " +:+ str e), (tr ++ [Sent req])%list).
Proof.
  intros Hget Ht Hc Hr Hq. enter_fetch Hget. by rewrite Ht, Hc, Hr, Hq.
Qed.

Lemma fetch_unexpected e tr :
  requests_get w req = Raise e → isinstance e RequestException = false →
  fetch w url timeout headers tr =
    (Val (false, "Unexpected error: " +:+ str e), (tr ++ [Sent req])%list).
Proof.
  intros Hget Hq. enter_fetch Hget.
  destruct (not_request_exception _ Hq) as (Ht & Hc & Hr).
  unfold isinstance in *. by rewrite Ht, Hc, Hr, Hq, issubclass_Exception.
Qed.

(** Whatever the network does, the block returns a pair, after sending the
    one request.  The flag is [True] exactly when the request was answered
    after a redirect or with a status outside [400, 600), and then the
    message is one of the two success messages. *)
Lemma fetch_total tr :
  ∃ r, fetch w url timeout headers tr = (Val r, (tr ++ [Sent req])%list) ∧
    r.2 ≠ "" ∧
    (r.1 = true ↔ answered_ok w req) ∧
    (r.1 = true →
       r.2 = "URL is accessible" ∨ startswith r.2 "Redirects to " = true).
Proof.
  destruct (requests_get w req) as [resp|e] eqn:Hget.
  - assert (answered_ok w req ↔
              (history resp ≠ [] ∨ ¬ (400 ≤ status_code resp < 600))) as Hok.
    { split; [intros (resp' & Hget' & H)|intros H].
      - by assert (resp' = resp) as -> by congruence.
      - by exists resp. }
    setoid_rewrite Hok.
    destruct (decide (history resp = [])) as [Hhist|Hhist].
    + destruct (decide (400 ≤ status_code resp < 600)) as [Hcode|Hcode].
      * destruct (decide (status_code resp = 404)) as [H404|H404].
        -- eexists; split; [by eapply fetch_404|]. simpl.
           split; [done|]. split; [|done]. split; [done | by intros [?|?]].
        -- eexists; split; [by eapply fetch_http_error|]. simpl.
           split; [by apply app_nonempty|]. split; [|done].
           split; [done | by intros [?|?]].
      * eexists; split; [by eapply fetch_accessible|]. simpl.
        split; [done|]. split; [|by left]. split; [by right | done].
    + eexists; split; [by eapply fetch_redirect|]. simpl.
      split; [by apply app_nonempty|]. split; [split; [by left | done]|].
      intros _. right. apply startswith_spec. by eexists.
  - assert (¬ answered_ok w req) as Hnok.
    { intros (resp & Hget' & _). congruence. }
    assert (∀ s, s ≠ "" →
      (false, s).2 ≠ "" ∧ ((false, s).1 = true ↔ answered_ok w req) ∧
      ((false, s).1 = true →
         (false, s).2 = "URL is accessible" ∨
         startswith (false, s).2 "Redirects to " = true)) as Hfalse.
    { intros s Hs. simpl. split; [done|]. split; [split|]; done. }
    destruct (isinstance e Timeout) eqn:Ht.
    { eexists; split; [by eapply fetch_timeout|]. by apply Hfalse. }
    destruct (isinstance e ConnectionError) eqn:Hc.
    { eexists; split; [by eapply fetch_connection_error|].
      destruct (names_dns_failure _); [|destruct (str_in _ _)];
        by apply Hfalse. }
    destruct (isinstance e TooManyRedirects) eqn:Hr.
    { eexists; split; [by eapply fetch_too_many_redirects|]. by apply Hfalse. }
    destruct (isinstance e RequestException) eqn:Hq.
    + eexists; split; [by eapply fetch_request_error|].
      by apply Hfalse, app_nonempty.
    + eexists; split; [by eapply fetch_unexpected|].
      by apply Hfalse, app_nonempty.
Qed.

End fetch_block.

(** ** [check_url] as a whole *)

Section check_url_runs.

Context (w : World) (url : string) (timeout : Z) (use_browser_agent : bool).

Lemma check_url_early r tr :
  validate w url [] = (Val (Some r), tr) →
  run (check_url w url timeout use_browser_agent) = (Val r, tr).
Proof. intros Hv. unfold run, check_url, bind. by rewrite Hv. Qed.

Lemma check_url_well_formed :
  well_formed w url →
  run (check_url w url timeout use_browser_agent) =
    fetch w url timeout (make_headers use_browser_agent) [Parsed url].
Proof.
  intros Hwf. unfold run, check_url, bind.
  by rewrite (validate_well_formed w url [] Hwf).
Qed.

(** The function returns a pair.  It has parsed its argument and, on
    well-formed input only, sent the one request after that. *)
Lemma check_url_total :
  ∃ r, (run (check_url w url timeout use_browser_agent)).1 = Val r ∧
    r.2 ≠ "" ∧
    (r.1 = true ↔
       well_formed w url ∧ answered_ok w (request_of url timeout use_browser_agent)) ∧
    (r.1 = true →
       r.2 = "URL is accessible" ∨ startswith r.2 "Redirects to " = true).
Proof.
  destruct (validate_total w url []) as ([r|] & Hv & Hearly).
  - destruct Hearly as (Hnwf & Hfalse & Hmsg).
    exists r. rewrite (check_url_early r _ Hv). simpl.
    split; [done|]. split; [done|]. rewrite Hfalse.
    split; [split; [done | by intros [? _]] | done].
  - rewrite (check_url_well_formed Hearly).
    destruct (fetch_total w url timeout (make_headers use_browser_agent)
                [Parsed url]) as (r & -> & Hmsg & Hiff & Hsucc).
    exists r. simpl. split; [done|]. split; [done|]. split; [|done].
    rewrite Hiff. unfold request_of. by split; [|intros [_ ?]].
Qed.

Lemma check_url_trace :
  (¬ well_formed w url ∧
     (run (check_url w url timeout use_browser_agent)).2 = [Parsed url]) ∨
  (well_formed w url ∧
     (run (check_url w url timeout use_browser_agent)).2 =
       [Parsed url; Sent (request_of url timeout use_browser_agent)]).
Proof.
  destruct (validate_total w url []) as ([r|] & Hv & Hearly).
  - left. destruct Hearly as (Hnwf & _). split; [done|].
    by rewrite (check_url_early r _ Hv).
  - right. split; [done|]. rewrite (check_url_well_formed Hearly).
    by destruct (fetch_total w url timeout (make_headers use_browser_agent)
                   [Parsed url]) as (r & -> & _).
Qed.

End check_url_runs.

(** Inputs of the sample world that pass validation. *)
Ltac sample_well_formed :=
  eexists; split; [vm_compute; reflexivity|];
  split; [by apply (bool_decide_unpack _) | done].

(** ** Validation *)

(** C4.  Validation comes first and its checks are tried in order: a
    parser failure gives "Invalid URL format: <detail>"; else an empty
    scheme gives the missing-protocol message; else an empty host part
    gives the malformed-URL message; else a scheme other than http and
    https gives the unsupported-protocol message.  In each of these four
    cases the parser call is the only call made, and in every run the
    parser call precedes the request, if one is sent at all. *)
Theorem check_url_validation_order w url timeout use_browser_agent :
  let out := run (check_url w url timeout use_browser_agent) in
  (∀ e, urlparse w url = Raise e →
     out = (Val (false, "Invalid URL format: " +:+ str e), [Parsed url])) ∧
  (∀ p, urlparse w url = Val p →
     (scheme p = "" →
        out = (Val (false, "Invalid URL: Missing protocol (http:// or https://)"),
               [Parsed url])) ∧
     (scheme p ≠ "" → netloc p = "" →
        out = (Val (false, "Invalid URL: Malformed URL format"), [Parsed url])) ∧
     (scheme p ≠ "" → netloc p ≠ "" → scheme p ∉ ["http"; "https"] →
        out = (Val (false, "Invalid URL: Unsupported protocol '" +:+ scheme p +:+ "'"),
               [Parsed url]))) ∧
  (out.2 = [Parsed url] ∨
   out.2 = [Parsed url; Sent (request_of url timeout use_browser_agent)]).
Proof.
  intros out. subst out. split; [|split].
  - intros e Hparse. apply check_url_early. by apply validate_raise.
  - intros p Hparse. split; [|split]; intros; apply check_url_early.
    + by eapply validate_no_scheme.
    + by eapply validate_no_netloc.
    + by eapply validate_unsupported.
  - destruct (check_url_trace w url timeout use_browser_agent)
      as [[_ ->]|[_ ->]]; auto.
Qed.

Lemma check_url_validation_order_witness :
  run (check_url Sample.world "http://[::1/" 5 false) =
    (Val (false, "Invalid URL format: Invalid IPv6 URL"), [Parsed "http://[::1/"]) ∧
  run (check_url Sample.world "www.google.com" 5 false) =
    (Val (false, "Invalid URL: Missing protocol (http:// or https://)"),
     [Parsed "www.google.com"]) ∧
  run (check_url Sample.world "http://" 5 false) =
    (Val (false, "Invalid URL: Malformed URL format"), [Parsed "http://"]) ∧
  run (check_url Sample.world "ftp://example.com/x" 5 false) =
    (Val (false, "Invalid URL: Unsupported protocol 'ftp'"),
     [Parsed "ftp://example.com/x"]).
Proof.
  split; [|split; [|split]].
  - apply (proj1 (check_url_validation_order Sample.world "http://[::1/" 5 false)
             (mkExn ValueError "Invalid IPv6 URL")).
    reflexivity.
  - apply (proj1 (proj1 (proj2
             (check_url_validation_order Sample.world "www.google.com" 5 false))
             (mkParseResult "" "" "www.google.com" "" "" "") eq_refl)).
    reflexivity.
  - apply (proj1 (proj2 (proj1 (proj2
             (check_url_validation_order Sample.world "http://" 5 false))
             (mkParseResult "http" "" "" "" "" "") eq_refl))).
    + discriminate.
    + reflexivity.
  - apply (proj2 (proj2 (proj1 (proj2
             (check_url_validation_order Sample.world "ftp://example.com/x" 5 false))
             (mkParseResult "ftp" "example.com" "/x" "" "" "") eq_refl))).
    + discriminate.
    + discriminate.
    + apply (bool_decide_eq_false_1 _). reflexivity.
Defined.

(** C9.  On the empty string, which [urlparse] turns into a result whose
    fields are all empty, [check_url] returns the missing-protocol message,
    not the parse-failure one, and sends no request. *)
Theorem check_url_empty_string w timeout use_browser_agent :
  urlparse w "" = Val (mkParseResult "" "" "" "" "" "") →
  (run (check_url w "" timeout use_browser_agent)).1 =
    Val (false, "Invalid URL: Missing protocol (http:// or https://)") ∧
  sends (run (check_url w "" timeout use_browser_agent)).2 = [].
Proof.
  intros Hparse.
  by rewrite (check_url_early w "" timeout use_browser_agent _ _
                (validate_no_scheme w "" _ [] Hparse eq_refl)).
Qed.

Lemma check_url_empty_string_witness :
  (run (check_url Sample.world "" 5 false)).1 =
    Val (false, "Invalid URL: Missing protocol (http:// or https://)") ∧
  sends (run (check_url Sample.world "" 5 false)).2 = [].
Proof. apply (check_url_empty_string Sample.world 5 false). reflexivity. Defined.

(** ** Responses *)

(** C3.  When the response came after at least one redirect, the result
    is success with "Redirects to <final URL>", whatever the final status
    code is: the history is looked at before the status code. *)
Theorem check_url_redirect_first w url timeout use_browser_agent resp :
  well_formed w url →
  requests_get w (request_of url timeout use_browser_agent) = Val resp →
  history resp ≠ [] →
  (run (check_url w url timeout use_browser_agent)).1 =
    Val (true, "Redirects to " +:+ Resp.url resp).
Proof.
  intros Hwf Hget Hhist. rewrite (check_url_well_formed _ _ _ _ Hwf).
  by rewrite (fetch_redirect _ _ _ _ resp _ Hget Hhist).
Qed.

Lemma check_url_redirect_first_witness :
  status_code (mkResponse 404 "https://github.com/gone" [Sample.moved]) = 404 ∧
  (run (check_url Sample.world "http://github.com/gone" 5 false)).1 =
    Val (true, "Redirects to https://github.com/gone").
Proof.
  split; [reflexivity|].
  apply (check_url_redirect_first Sample.world "http://github.com/gone" 5 false
           (mkResponse 404 "https://github.com/gone" [Sample.moved])).
  - sample_well_formed.
  - reflexivity.
  - discriminate.
Defined.

Lemma str_int_examples :
  str_int 403 = "403" ∧ str_int 500 = "500" ∧ str_int 599 = "599".
Proof. by vm_compute. Qed.

(** What [str] prints for a number of three digits is its hundreds, tens
    and units digit. *)
Lemma str_int_three_digits n : 100 ≤ n < 1000 → str_int n = three_digits n.
Proof.
  intros Hn.
  assert (forallb
            (λ i, String.eqb (str_int (100 + Z.of_nat i))
                             (three_digits (100 + Z.of_nat i)))
            (seq 0 900) = true) as Hall by (vm_compute; reflexivity).
  rewrite forallb_forall in Hall.
  specialize (Hall (Z.to_nat (n - 100))).
  rewrite Z2Nat.id, Zplus_minus in Hall by lia.
  apply String.eqb_eq, Hall, in_seq. lia.
Qed.

(** C5.  When the response came without a redirect, the status code
    decides, in this order: 404 gives (False, "404 Not Found"); any other
    code in [400, 600) gives (False, "HTTP <code> error"), where <code>
    is the status written with its three decimal digits; every other code
    gives (True, "URL is accessible"). *)
Theorem check_url_status_code w url timeout use_browser_agent resp :
  well_formed w url →
  requests_get w (request_of url timeout use_browser_agent) = Val resp →
  history resp = [] →
  let out := (run (check_url w url timeout use_browser_agent)).1 in
  (status_code resp = 404 → out = Val (false, "404 Not Found")) ∧
  (status_code resp ≠ 404 → 400 ≤ status_code resp < 600 →
     out = Val (false, "HTTP " +:+ three_digits (status_code resp) +:+ " error")) ∧
  (¬ (400 ≤ status_code resp < 600) → out = Val (true, "URL is accessible")).
Proof.
  intros Hwf Hget Hhist out. subst out.
  rewrite (check_url_well_formed _ _ _ _ Hwf).
  split; [|split].
  - intros Hcode. by rewrite (fetch_404 _ _ _ _ resp _ Hget Hhist Hcode).
  - intros Hne Hcode.
    rewrite (fetch_http_error _ _ _ _ resp _ Hget Hhist Hne Hcode).
    by rewrite str_int_three_digits by lia.
  - intros Hcode. by rewrite (fetch_accessible _ _ _ _ resp _ Hget Hhist Hcode).
Qed.

Lemma check_url_status_code_witness :
  (run (check_url Sample.world "https://example.com/missing" 5 false)).1 =
    Val (false, "404 Not Found") ∧
  (run (check_url Sample.world "https://example.com/broken" 5 false)).1 =
    Val (false, "HTTP 500 error") ∧
  (run (check_url Sample.world "https://example.com/" 5 false)).1 =
    Val (true, "URL is accessible").
Proof.
  split; [|split].
  - apply (check_url_status_code Sample.world "https://example.com/missing" 5 false
             (mkResponse 404 "https://example.com/missing" []));
      [sample_well_formed | reflexivity..].
  - apply (check_url_status_code Sample.world "https://example.com/broken" 5 false
             (mkResponse 500 "https://example.com/broken" []));
      [sample_well_formed | reflexivity | reflexivity | discriminate | simpl; lia].
  - apply (check_url_status_code Sample.world "https://example.com/" 5 false
             (mkResponse 200 "https://example.com/" []));
      [sample_well_formed | reflexivity | reflexivity | simpl; lia].
Defined.

(** ** Exceptions of the request *)

Lemma names_dns_failure_spec text :
  names_dns_failure text = true ↔
  Contains "nodename nor servname provided" text ∨
  Contains "name or service not known" text ∨
  Contains "getaddrinfo failed" text.
Proof.
  unfold names_dns_failure.
  rewrite !orb_true_iff, !str_in_spec. tauto.
Qed.

(** C6.  For a connection error that is not a timeout, the text of the
    exception as [str.lower] returns it decides: one of the three
    name-lookup phrases gives the DNS message; else "connection refused"
    gives the refused message; else the generic network message.  A phrase
    found in the text as raised is found in the lowered text. *)
Theorem check_url_connection_error w url timeout use_browser_agent e :
  well_formed w url →
  requests_get w (request_of url timeout use_browser_agent) = Raise e →
  isinstance e ConnectionError = true → isinstance e Timeout = false →
  let out := (run (check_url w url timeout use_browser_agent)).1 in
  let dns text :=
    Contains "nodename nor servname provided" text ∨
    Contains "name or service not known" text ∨
    Contains "getaddrinfo failed" text in
  (dns (str e) ∨ dns (lower w (str e)) →
     out = Val (false, "DNS resolution failed: Unable to resolve domain name")) ∧
  (¬ dns (lower w (str e)) → Contains "connection refused" (lower w (str e)) →
     out = Val (false, "Connection refused: Server is not accepting connections")) ∧
  (¬ dns (lower w (str e)) → ¬ Contains "connection refused" (lower w (str e)) →
     out = Val (false, "Network connection error: Unable to connect to server")).
Proof.
  intros Hwf Hget Hc Ht out dns. subst out.
  rewrite (check_url_well_formed _ _ _ _ Hwf).
  rewrite (fetch_connection_error _ _ _ _ e _ Hget Ht Hc). simpl.
  assert (∀ text, dns text → dns (lower w text)) as Hlower.
  { intros text [H|[H|H]]; [left|right; left|right; right];
      by apply Contains_lower. }
  assert (¬ dns (lower w (str e)) → names_dns_failure (lower w (str e)) = false)
    as Hnone.
  { intros Hdns. apply not_true_is_false.
    intros H%names_dns_failure_spec. by apply Hdns. }
  split; [|split].
  - intros Hdns.
    assert (dns (lower w (str e))) as Hdns' by (destruct Hdns; auto).
    apply names_dns_failure_spec in Hdns'. by rewrite Hdns'.
  - intros Hdns%Hnone Href%str_in_spec. by rewrite Hdns, Href.
  - intros Hdns%Hnone Href. rewrite Hdns.
    destruct (str_in "connection refused" (lower w (str e))) eqn:Hin; [|done].
    by apply str_in_spec in Hin.
Qed.

Lemma check_url_connection_error_witness :
  (run (check_url Sample.world "https://this-domain-does-not-exist-12345.com" 5 false)).1 =
    Val (false, "DNS resolution failed: Unable to resolve domain name") ∧
  (run (check_url Sample.world "http://localhost:9999" 5 false)).1 =
    Val (false, "Connection refused: Server is not accepting connections") ∧
  (run (check_url Sample.world "https://expired.example.com/" 5 false)).1 =
    Val (false, "Network connection error: Unable to connect to server") ∧
  (run (check_url Kelvin.world "https://nx.example.com/" 5 false)).1 =
    Val (false, "DNS resolution failed: Unable to resolve domain name").
Proof.
  assert (∀ text, names_dns_failure text = false →
            ¬ (Contains "nodename nor servname provided" text ∨
               Contains "name or service not known" text ∨
               Contains "getaddrinfo failed" text)) as Hno.
  { intros text Hf H%names_dns_failure_spec. congruence. }
  split; [|split; [|split]].
  - eapply (check_url_connection_error Sample.world
              "https://this-domain-does-not-exist-12345.com" 5 false);
      [sample_well_formed | reflexivity..|].
    right. right. left. apply str_in_spec. reflexivity.
  - eapply (check_url_connection_error Sample.world "http://localhost:9999" 5 false);
      [sample_well_formed | reflexivity..| |].
    + apply Hno. reflexivity.
    + apply str_in_spec. reflexivity.
  - eapply (check_url_connection_error Sample.world
              "https://expired.example.com/" 5 false);
      [sample_well_formed | reflexivity..| |].
    + apply Hno. reflexivity.
    + intros H%str_in_spec. discriminate H.
  - eapply (check_url_connection_error Kelvin.world
              "https://nx.example.com/" 5 false);
      [sample_well_formed | reflexivity..|].
    right. right. left. apply str_in_spec. reflexivity.
Defined.

Lemma too_many_redirects_class c :
  issubclass c TooManyRedirects = true →
  issubclass c Timeout = false ∧ issubclass c ConnectionError = false.
Proof. destruct c; vm_compute; intros H; try discriminate H; done. Qed.

(** C7.  A timeout, whether [Timeout] itself, [ConnectTimeout] or
    [ReadTimeout], gives the timeout message, and [TooManyRedirects] gives
    (False, "Too many redirects"). *)
Theorem check_url_timeout_and_redirect_limit w url timeout use_browser_agent e :
  well_formed w url →
  requests_get w (request_of url timeout use_browser_agent) = Raise e →
  let out := (run (check_url w url timeout use_browser_agent)).1 in
  (class_of e ∈ [Timeout; ConnectTimeout; ReadTimeout] →
     out = Val (false, "Connection timeout: Request took too long to respond")) ∧
  (isinstance e TooManyRedirects = true →
     out = Val (false, "Too many redirects")).
Proof.
  intros Hwf Hget out. subst out.
  rewrite (check_url_well_formed _ _ _ _ Hwf). split.
  - intros Hin.
    assert (isinstance e Timeout = true) as Ht.
    { apply timeout_classes. apply list_elem_of_In in Hin.
      destruct Hin as [<-|[<-|[<-|[]]]]; auto. }
    by rewrite (fetch_timeout _ _ _ _ e _ Hget Ht).
  - intros Hr. destruct (too_many_redirects_class _ Hr) as [Ht Hc].
    by rewrite (fetch_too_many_redirects _ _ _ _ e _ Hget Ht Hc Hr).
Qed.

Lemma check_url_timeout_and_redirect_limit_witness :
  (run (check_url Sample.world "http://10.255.255.1" 5 false)).1 =
    Val (false, "Connection timeout: Request took too long to respond") ∧
  (run (check_url Sample.world "https://slow.example.com/" 5 false)).1 =
    Val (false, "Connection timeout: Request took too long to respond") ∧
  (run (check_url Sample.world "http://loop.example.com/" 5 false)).1 =
    Val (false, "Too many redirects").
Proof.
  split; [|split].
  - eapply (check_url_timeout_and_redirect_limit Sample.world
              "http://10.255.255.1" 5 false);
      [sample_well_formed | reflexivity |].
    by apply (bool_decide_unpack _).
  - eapply (check_url_timeout_and_redirect_limit Sample.world
              "https://slow.example.com/" 5 false);
      [sample_well_formed | reflexivity |].
    by apply (bool_decide_unpack _).
  - eapply (check_url_timeout_and_redirect_limit Sample.world
              "http://loop.example.com/" 5 false);
      [sample_well_formed | reflexivity..].
Defined.

(** ** Totality and the shape of the result *)

(** C1.  [check_url] returns a pair for every string, timeout and flag,
    whatever the parser and the network do: nothing is raised.  Input that
    fails validation, a response without redirect whose status is in
    [400, 600), and any exception of the request all give [False]. *)
Theorem check_url_never_raises w url timeout use_browser_agent :
  ∃ success explanation,
    (run (check_url w url timeout use_browser_agent)).1 = Val (success, explanation) ∧
    (¬ well_formed w url → success = false) ∧
    (∀ resp, requests_get w (request_of url timeout use_browser_agent) = Val resp →
       history resp = [] → 400 ≤ status_code resp < 600 → success = false) ∧
    (∀ e, requests_get w (request_of url timeout use_browser_agent) = Raise e →
       success = false).
Proof.
  destruct (check_url_total w url timeout use_browser_agent)
    as ([success explanation] & Hrun & _ & Hiff & _).
  exists success, explanation. simpl in Hiff. split; [done|].
  destruct success; [|done].
  destruct Hiff as [Hok _]. destruct (Hok eq_refl) as (Hwf & resp & Hget & Hresp).
  split; [done|]. split.
  - intros resp' Hget' Hhist Hcode.
    assert (resp' = resp) as -> by congruence. by destruct Hresp.
  - intros e Hget'. congruence.
Qed.

Lemma check_url_never_raises_witness :
  ∃ explanation,
    (run (check_url Sample.world "http://example.com/truncated" 5 false)).1 =
      Val (false, explanation).
Proof.
  destruct (check_url_never_raises Sample.world "http://example.com/truncated" 5 false)
    as (success & explanation & Hrun & _ & _ & Hexn).
  exists explanation. rewrite Hrun. f_equal. f_equal.
  apply (Hexn (mkExn ChunkedEncodingError "Connection broken: IncompleteRead")).
  reflexivity.
Defined.

(** C8.  Whichever branch is taken, the explanation that comes back is
    not the empty string. *)
Theorem check_url_explanation_nonempty w url timeout use_browser_agent :
  ∃ success explanation,
    (run (check_url w url timeout use_browser_agent)).1 = Val (success, explanation) ∧
    explanation ≠ "".
Proof.
  destruct (check_url_total w url timeout use_browser_agent)
    as ([success explanation] & Hrun & Hmsg & _).
  by exists success, explanation.
Qed.

(** C10.  A result with flag [True] carries either "URL is accessible" or
    a message that starts with "Redirects to ". *)
Theorem check_url_success_messages w url timeout use_browser_agent explanation :
  (run (check_url w url timeout use_browser_agent)).1 = Val (true, explanation) →
  explanation = "URL is accessible" ∨
  startswith explanation "Redirects to " = true.
Proof.
  intros Hrun.
  destruct (check_url_total w url timeout use_browser_agent)
    as (r & Hrun' & _ & _ & Hsucc).
  assert (r = (true, explanation)) as -> by congruence.
  by apply Hsucc.
Qed.

Lemma check_url_success_messages_witness :
  "Redirects to https://github.com/" = "URL is accessible" ∨
  startswith "Redirects to https://github.com/" "Redirects to " = true.
Proof.
  apply (check_url_success_messages Sample.world "http://github.com" 5 false).
  reflexivity.
Defined.

(** C2, as stated, fails: a response without redirect and with status 304,
    which is neither a 2xx code nor in [400, 600), is reported as success. *)
Lemma check_url_304_is_success :
  requests_get Sample.world (request_of "https://example.com/cached" 5 false) =
    Val (mkResponse 304 "https://example.com/cached" []) ∧
  (run (check_url Sample.world "https://example.com/cached" 5 false)).1 =
    Val (true, "URL is accessible") ∧
  ¬ (200 ≤ 304 < 300).
Proof. split; [reflexivity|]. split; [reflexivity|lia]. Qed.

(** C2, amended.  The flag is [True] exactly when the input passed
    validation and the request was answered either after at least one
    redirect or with a final status code outside [400, 600); in every
    other case it is [False]. *)
Theorem check_url_success_iff w url timeout use_browser_agent success explanation :
  (run (check_url w url timeout use_browser_agent)).1 = Val (success, explanation) →
  (success = true ↔
     well_formed w url ∧
     ∃ resp, requests_get w (request_of url timeout use_browser_agent) = Val resp ∧
       (history resp ≠ [] ∨ ¬ (400 ≤ status_code resp < 600))).
Proof.
  intros Hrun.
  destruct (check_url_total w url timeout use_browser_agent)
    as (r & Hrun' & _ & Hiff & _).
  assert (r = (success, explanation)) as -> by congruence.
  exact Hiff.
Qed.

Lemma check_url_success_iff_witness :
  well_formed Sample.world "https://example.com/cached" ∧
  ∃ resp,
    requests_get Sample.world (request_of "https://example.com/cached" 5 false) =
      Val resp ∧
    (history resp ≠ [] ∨ ¬ (400 ≤ status_code resp < 600)).
Proof.
  apply (check_url_success_iff Sample.world "https://example.com/cached" 5 false
           true "URL is accessible"); reflexivity.
Defined.

(** * Further properties *)

(** ** Every run takes one branch *)

Lemma check_url_branch w url timeout use_browser_agent :
  ∃ r, (run (check_url w url timeout use_browser_agent)).1 = Val r ∧
       Branch w url timeout use_browser_agent r.
Proof.
  destruct (urlparse w url) as [p|e] eqn:Hparse.
  - destruct (decide (scheme p = "")) as [Hs|Hs].
    { eexists. split; [|by eapply missing_protocol].
      by rewrite (check_url_early w url timeout use_browser_agent _ _
                    (validate_no_scheme w url p [] Hparse Hs)). }
    destruct (decide (netloc p = "")) as [Hn|Hn].
    { eexists. split; [|by eapply malformed].
      by rewrite (check_url_early w url timeout use_browser_agent _ _
                    (validate_no_netloc w url p [] Hparse Hs Hn)). }
    destruct (decide (scheme p ∈ ["http"; "https"])) as [Hin|Hin]; cycle 1.
    { eexists. split; [|by eapply unsupported_protocol].
      by rewrite (check_url_early w url timeout use_browser_agent _ _
                    (validate_unsupported w url p [] Hparse Hs Hn Hin)). }
    assert (well_formed w url) as Hwf by by exists p.
    rewrite (check_url_well_formed w url timeout use_browser_agent Hwf).
    destruct (requests_get w (request_of url timeout use_browser_agent))
      as [resp|e] eqn:Hget.
    + destruct (decide (history resp = [])) as [Hhist|Hhist]; cycle 1.
      { eexists. split; [|by eapply redirected].
        by rewrite (fetch_redirect _ _ _ _ resp _ Hget Hhist). }
      destruct (decide (400 ≤ status_code resp < 600)) as [Hcode|Hcode]; cycle 1.
      { eexists. split; [|by eapply accessible].
        by rewrite (fetch_accessible _ _ _ _ resp _ Hget Hhist Hcode). }
      destruct (decide (status_code resp = 404)) as [H404|H404].
      * eexists. split; [|by eapply not_found].
        by rewrite (fetch_404 _ _ _ _ resp _ Hget Hhist H404).
      * eexists. split; [|by eapply http_error].
        by rewrite (fetch_http_error _ _ _ _ resp _ Hget Hhist H404 Hcode).
    + destruct (isinstance e Timeout) eqn:Ht.
      { eexists. split; [|by eapply timed_out].
        by rewrite (fetch_timeout _ _ _ _ e _ Hget Ht). }
      destruct (isinstance e ConnectionError) eqn:Hc.
      { rewrite (fetch_connection_error _ _ _ _ e _ Hget Ht Hc).
        destruct (names_dns_failure (lower w (str e))) eqn:Hdns.
        { eexists. split; [done|]. by eapply dns_failed. }
        destruct (str_in "connection refused" (lower w (str e))) eqn:Href.
        - eexists. split; [done|]. by eapply refused.
        - eexists. split; [done|]. by eapply unreachable. }
      destruct (isinstance e TooManyRedirects) eqn:Hr.
      { eexists. split; [|by eapply redirect_limit].
        by rewrite (fetch_too_many_redirects _ _ _ _ e _ Hget Ht Hc Hr). }
      destruct (isinstance e RequestException) eqn:Hq.
      * eexists. split; [|by eapply request_error].
        by rewrite (fetch_request_error _ _ _ _ e _ Hget Ht Hc Hr Hq).
      * eexists. split; [|by eapply unexpected_error].
        by rewrite (fetch_unexpected _ _ _ _ e _ Hget Hq).
  - eexists. split; [|by eapply parse_failed].
    by rewrite (check_url_early w url timeout use_browser_agent _ _
                  (validate_raise w url e [] Hparse)).
Qed.

Lemma check_url_returns_branch w url timeout use_browser_agent r :
  (run (check_url w url timeout use_browser_agent)).1 = Val r →
  Branch w url timeout use_browser_agent r.
Proof.
  intros Hrun.
  destruct (check_url_branch w url timeout use_browser_agent) as (r' & Hrun' & Hb).
  by assert (r' = r) as -> by congruence.
Qed.

(** ** What the explanation tells *)

Lemma append_cancel_l s p q : s +:+ p = s +:+ q → p = q.
Proof.
  induction s as [|c s IH]; [done|].
  rewrite !append_cons. intros [= H]. by apply IH.
Qed.

Lemma append_length s p :
  String.length (s +:+ p) = (String.length s + String.length p)%nat.
Proof.
  induction s as [|c s IH]; [done|]. rewrite append_cons. simpl. by rewrite IH.
Qed.

Lemma append_cancel_r s t p : s +:+ p = t +:+ p → s = t.
Proof.
  intros Heq.
  assert (String.length s = String.length t) as Hlen.
  { apply (f_equal String.length) in Heq. rewrite !append_length in Heq. lia. }
  revert t Heq Hlen. induction s as [|c s IH]; intros [|d t]; try done.
  rewrite !append_cons. intros [= -> Heq] [= Hlen]. f_equal. by apply IH.
Qed.

(** Printing an integer loses nothing: the digits give the number back. *)
Lemma str_int_inj m n : str_int m = str_int n → m = n.
Proof.
  unfold str_int. intros Heq.
  assert (∀ k, NilZero.int_of_string (NilZero.string_of_int (Z.to_int k)) =
               Some (Z.to_int k)) as Hread.
  { intros k. apply NilZero.isi; destruct k; simpl; intros [= H];
      try discriminate H; by apply DecimalPos.Unsigned.to_uint_nonnil in H. }
  apply DecimalZ.to_int_inj.
  pose proof (Hread m) as Hm. rewrite Heq, Hread in Hm. congruence.
Qed.

(** Brings the literal head of an appended string to the front. *)
Ltac expose H := rewrite ?append_cons, ?append_nil in H.

Lemma Branch_success_message w url timeout use_browser_agent r :
  Branch w url timeout use_browser_agent r →
  r.1 = true ↔
  r.2 = "URL is accessible" ∨ startswith r.2 "Redirects to " = true.
Proof.
  destruct 1; simpl;
    (split;
     [ intros Hflag; first
         [ discriminate Hflag
         | by left
         | right; apply startswith_spec; by eexists ]
     | intros [Hmsg|Hmsg]; first
         [ reflexivity
         | expose Hmsg; simpl in Hmsg; discriminate Hmsg ] ]).
Qed.

Lemma Branch_http_error w url timeout use_browser_agent r code :
  Branch w url timeout use_browser_agent r →
  r.2 = "HTTP " +:+ str_int code +:+ " error" →
  r.1 = false ∧ code ≠ 404 ∧ 400 ≤ code < 600 ∧
  ∃ resp,
    requests_get w (request_of url timeout use_browser_agent) = Val resp ∧
    history resp = [] ∧ status_code resp = code.
Proof.
  destruct 1; simpl; intros Hmsg; expose Hmsg; try discriminate Hmsg.
  injection Hmsg as Hmsg. apply append_cancel_r, str_int_inj in Hmsg.
  subst code. split; [done|]. split; [done|]. split; [done|]. by exists resp.
Qed.

(** X6.  The flag can be read off the explanation: it is [True] exactly
    when the explanation is "URL is accessible" or starts with
    "Redirects to "; no failure message has either form, whatever detail
    it carries. *)
Theorem check_url_flag_from_explanation
    w url timeout use_browser_agent success explanation :
  (run (check_url w url timeout use_browser_agent)).1 = Val (success, explanation) →
  success = true ↔
  explanation = "URL is accessible" ∨ startswith explanation "Redirects to " = true.
Proof.
  intros Hrun%check_url_returns_branch.
  by apply Branch_success_message in Hrun.
Qed.

Lemma check_url_flag_from_explanation_witness :
  false = true ↔
  "Request error: Connection broken: IncompleteRead" = "URL is accessible" ∨
  startswith "Request error: Connection broken: IncompleteRead" "Redirects to " = true.
Proof.
  apply (check_url_flag_from_explanation Sample.world
           "http://example.com/truncated" 5 false).
  reflexivity.
Defined.

(** X7.  An explanation "HTTP <n> error" is only ever returned with the
    flag [False], for a response without redirect whose status code is
    that [n], and [n] is in [400, 600) and is not 404: a 404 is never
    reported as "HTTP 404 error". *)
Theorem check_url_http_error_names_status
    w url timeout use_browser_agent success code :
  (run (check_url w url timeout use_browser_agent)).1 =
    Val (success, "HTTP " +:+ str_int code +:+ " error") →
  success = false ∧ code ≠ 404 ∧ 400 ≤ code < 600 ∧
  ∃ resp,
    requests_get w (request_of url timeout use_browser_agent) = Val resp ∧
    history resp = [] ∧ status_code resp = code.
Proof.
  intros Hrun%check_url_returns_branch.
  by apply (Branch_http_error _ _ _ _ _ code) in Hrun.
Qed.

Lemma check_url_http_error_names_status_witness :
  false = false ∧ 403 ≠ 404 ∧ 400 ≤ 403 < 600 ∧
  ∃ resp,
    requests_get Sample.world (request_of "https://example.com/forbidden" 5 false) =
      Val resp ∧
    history resp = [] ∧ status_code resp = 403.
Proof.
  apply (check_url_http_error_names_status Sample.world
           "https://example.com/forbidden" 5 false false 403).
  reflexivity.
Defined.

(** ** The request *)

(** Inputs of the sample world whose scheme is not supported. *)
Ltac sample_unsupported :=
  intros (p & Hparse & Hin & _); injection Hparse as <-;
  refine (bool_decide_eq_false_1 _ _ Hin); vm_compute; reflexivity.

(** X1.  A call sends one request when the input passes validation and
    none otherwise; there is no second attempt, whatever the first one
    gave.  The request carries the url as given, the caller's timeout and
    [allow_redirects=True]. *)
Theorem check_url_sends_one_request w url timeout use_browser_agent :
  let sent := sends (run (check_url w url timeout use_browser_agent)).2 in
  (well_formed w url →
     ∃ r, sent = [r] ∧ req_url r = url ∧ req_timeout r = timeout ∧
          req_allow_redirects r = true) ∧
  (¬ well_formed w url → sent = []).
Proof.
  intros sent. subst sent.
  destruct (check_url_trace w url timeout use_browser_agent)
    as [[Hnwf ->]|[Hwf ->]]; (split; [|done]); [done|].
  intros _. by exists (request_of url timeout use_browser_agent).
Qed.

Lemma check_url_sends_one_request_witness :
  (∃ r, sends (run (check_url Sample.world "http://10.255.255.1" 30 true)).2 = [r] ∧
        req_url r = "http://10.255.255.1" ∧ req_timeout r = 30 ∧
        req_allow_redirects r = true) ∧
  sends (run (check_url Sample.world "ftp://example.com/x" 30 true)).2 = [].
Proof.
  split.
  - apply (check_url_sends_one_request Sample.world "http://10.255.255.1" 30 true).
    sample_well_formed.
  - apply (check_url_sends_one_request Sample.world "ftp://example.com/x" 30 true).
    sample_unsupported.
Defined.

(** X2.  The headers of a request that is sent hold the browser
    [User-Agent] exactly when [use_browser_agent] is true, and never any
    other entry. *)
Theorem check_url_user_agent_header w url timeout use_browser_agent r :
  r ∈ sends (run (check_url w url timeout use_browser_agent)).2 →
  req_headers r !! "User-Agent" =
    (if use_browser_agent then Some browser_agent else None) ∧
  ∀ name, name ≠ "User-Agent" → req_headers r !! name = None.
Proof.
  destruct (check_url_trace w url timeout use_browser_agent)
    as [[_ ->]|[_ ->]]; simpl.
  - by intros ?%elem_of_nil.
  - intros ->%list_elem_of_singleton. simpl. unfold make_headers.
    destruct use_browser_agent.
    + split; [apply lookup_insert_eq|].
      intros name Hname. by rewrite lookup_insert_ne.
    + done.
Qed.

Lemma check_url_user_agent_header_witness :
  req_headers (request_of "https://example.com/" 5 true) !! "User-Agent" =
    Some browser_agent ∧
  ∀ name, name ≠ "User-Agent" →
    req_headers (request_of "https://example.com/" 5 true) !! name = None.
Proof.
  apply (check_url_user_agent_header Sample.world "https://example.com/" 5 true).
  apply list_elem_of_singleton. reflexivity.
Defined.

(** ** What the result depends on *)

Lemma validate_parser_only w1 w2 url tr :
  urlparse w1 url = urlparse w2 url → validate w1 url tr = validate w2 url tr.
Proof.
  intros Hparse. unfold validate, try_except, bind, call_urlparse.
  by rewrite Hparse.
Qed.

(** X3.  On input that fails validation the whole run, result and trace,
    is fixed by what the parser says: the network, the timeout and the
    flag have no part in it. *)
Theorem check_url_invalid_parser_only w1 w2 url timeout1 timeout2 flag1 flag2 :
  urlparse w1 url = urlparse w2 url →
  ¬ well_formed w1 url →
  run (check_url w1 url timeout1 flag1) = run (check_url w2 url timeout2 flag2).
Proof.
  intros Hparse Hnwf.
  destruct (validate_total w1 url []) as ([r|] & Hv & Hearly); [|done].
  rewrite (check_url_early w1 url timeout1 flag1 r _ Hv).
  rewrite (validate_parser_only w1 w2 url [] Hparse) in Hv.
  by rewrite (check_url_early w2 url timeout2 flag2 r _ Hv).
Qed.

Lemma check_url_invalid_parser_only_witness :
  run (check_url Sample.world "ftp://example.com/x" 5 false) =
  run (check_url Guarded.world "ftp://example.com/x" 60 true).
Proof.
  apply check_url_invalid_parser_only; [reflexivity|].
  sample_unsupported.
Defined.

(** X4.  The timeout and the flag act through the request only: two
    calls for one url whose requests get the same answer return the same
    pair. *)
Theorem check_url_options_through_answer w url timeout1 timeout2 flag1 flag2 :
  requests_get w (request_of url timeout1 flag1) =
    requests_get w (request_of url timeout2 flag2) →
  (run (check_url w url timeout1 flag1)).1 =
  (run (check_url w url timeout2 flag2)).1.
Proof.
  intros Hget.
  destruct (validate_total w url []) as ([r|] & Hv & Hearly).
  - by rewrite (check_url_early w url timeout1 flag1 r _ Hv),
               (check_url_early w url timeout2 flag2 r _ Hv).
  - rewrite !(check_url_well_formed w url _ _ Hearly).
    unfold request_of in Hget.
    destruct (requests_get w (mkRequest url timeout2 true (make_headers flag2)))
      as [resp|e] eqn:Hget2; rename Hget into Hget1.
    + destruct (decide (history resp = [])) as [Hhist|Hhist]; cycle 1.
      { by rewrite (fetch_redirect _ _ _ _ resp _ Hget1 Hhist),
                   (fetch_redirect _ _ _ _ resp _ Hget2 Hhist). }
      destruct (decide (400 ≤ status_code resp < 600)) as [Hcode|Hcode]; cycle 1.
      { by rewrite (fetch_accessible _ _ _ _ resp _ Hget1 Hhist Hcode),
                   (fetch_accessible _ _ _ _ resp _ Hget2 Hhist Hcode). }
      destruct (decide (status_code resp = 404)) as [H404|H404].
      * by rewrite (fetch_404 _ _ _ _ resp _ Hget1 Hhist H404),
                   (fetch_404 _ _ _ _ resp _ Hget2 Hhist H404).
      * by rewrite (fetch_http_error _ _ _ _ resp _ Hget1 Hhist H404 Hcode),
                   (fetch_http_error _ _ _ _ resp _ Hget2 Hhist H404 Hcode).
    + destruct (isinstance e Timeout) eqn:Ht.
      { by rewrite (fetch_timeout _ _ _ _ e _ Hget1 Ht),
                   (fetch_timeout _ _ _ _ e _ Hget2 Ht). }
      destruct (isinstance e ConnectionError) eqn:Hc.
      { by rewrite (fetch_connection_error _ _ _ _ e _ Hget1 Ht Hc),
                   (fetch_connection_error _ _ _ _ e _ Hget2 Ht Hc). }
      destruct (isinstance e TooManyRedirects) eqn:Hr.
      { by rewrite (fetch_too_many_redirects _ _ _ _ e _ Hget1 Ht Hc Hr),
                   (fetch_too_many_redirects _ _ _ _ e _ Hget2 Ht Hc Hr). }
      destruct (isinstance e RequestException) eqn:Hq.
      * by rewrite (fetch_request_error _ _ _ _ e _ Hget1 Ht Hc Hr Hq),
                   (fetch_request_error _ _ _ _ e _ Hget2 Ht Hc Hr Hq).
      * by rewrite (fetch_unexpected _ _ _ _ e _ Hget1 Hq),
                   (fetch_unexpected _ _ _ _ e _ Hget2 Hq).
Qed.

Lemma check_url_options_through_answer_witness :
  (run (check_url Sample.world "https://example.com/" 5 false)).1 =
  (run (check_url Sample.world "https://example.com/" 60 true)).1.
Proof.
  apply (check_url_options_through_answer Sample.world "https://example.com/").
  reflexivity.
Defined.

(** ** The last two [except] clauses *)

Lemma request_error_classes c :
  c ∈ [RequestException; InvalidJSONError; HTTPError; URLRequired;
       MissingSchema; InvalidSchema; InvalidURL; InvalidHeader;
       InvalidProxyURL; ChunkedEncodingError; ContentDecodingError;
       StreamConsumedError; RetryError; UnrewindableBodyError] ↔
  issubclass c RequestException = true ∧ issubclass c Timeout = false ∧
  issubclass c ConnectionError = false ∧ issubclass c TooManyRedirects = false.
Proof.
  split.
  - intros Hin. apply list_elem_of_In in Hin. simpl in Hin.
    repeat (destruct Hin as [<-|Hin]; [done|]). done.
  - intros (Hq & Ht & Hc & Hr).
    destruct c; try discriminate; by apply (bool_decide_unpack _).
Qed.

(** X5.  An exception of the request that is a [RequestException] but no
    timeout, connection error or redirect limit ([HTTPError],
    [MissingSchema], [InvalidURL], [ChunkedEncodingError], ...) gives
    "Request error: " followed by its text; one that is no
    [RequestException] at all ([ValueError], [UnicodeError], ...) gives
    "Unexpected error: " followed by its text. *)
Theorem check_url_other_exceptions w url timeout use_browser_agent e :
  well_formed w url →
  requests_get w (request_of url timeout use_browser_agent) = Raise e →
  let out := (run (check_url w url timeout use_browser_agent)).1 in
  (class_of e ∈
     [RequestException; InvalidJSONError; HTTPError; URLRequired;
      MissingSchema; InvalidSchema; InvalidURL; InvalidHeader;
      InvalidProxyURL; ChunkedEncodingError; ContentDecodingError;
      StreamConsumedError; RetryError; UnrewindableBodyError] →
     out = Val (false, "Request error: " +:+ str e)) ∧
  (isinstance e RequestException = false →
     out = Val (false, "Unexpected error: " +:+ str e)).
Proof.
  intros Hwf Hget out. subst out.
  rewrite (check_url_well_formed _ _ _ _ Hwf). split.
  - intros (Hq & Ht & Hc & Hr)%request_error_classes.
    by rewrite (fetch_request_error _ _ _ _ e _ Hget Ht Hc Hr Hq).
  - intros Hq. by rewrite (fetch_unexpected _ _ _ _ e _ Hget Hq).
Qed.

Lemma check_url_other_exceptions_witness :
  (run (check_url Sample.world "http://example.com/truncated" 5 false)).1 =
    Val (false, "Request error: Connection broken: IncompleteRead") ∧
  (run (check_url Sample.world "http://example.com:bad/" 5 false)).1 =
    Val (false, "Unexpected error: invalid literal for int() with base 10: 'bad'").
Proof.
  split.
  - apply (check_url_other_exceptions Sample.world
             "http://example.com/truncated" 5 false
             (mkExn ChunkedEncodingError "Connection broken: IncompleteRead"));
      [sample_well_formed | reflexivity |].
    by apply (bool_decide_unpack _).
  - apply (check_url_other_exceptions Sample.world
             "http://example.com:bad/" 5 false
             (mkExn ValueError "invalid literal for int() with base 10: 'bad'"));
      [sample_well_formed | reflexivity..].
Defined.

(** ** The tests *)

Lemma run_bind {A B} (m : M A) (k : A → M B) a :
  (run m).1 = Val a → run (bind m k) = k a (run m).2.
Proof.
  unfold run, bind. destruct (m []) as [[a'|e] tr]; simpl; [|done].
  by intros [= ->].
Qed.

Lemma Branch_invalid w url timeout use_browser_agent r :
  Branch w url timeout use_browser_agent r → ¬ well_formed w url →
  r.1 = false ∧ startswith r.2 "Invalid URL" = true.
Proof.
  destruct 1; simpl; intros Hnwf; try done;
    (split; [done|]); by rewrite ?append_cons, ?append_nil.
Qed.

Lemma invalid_in_lower w s :
  startswith s "Invalid URL" = true → str_in "invalid" (lower w s) = true.
Proof.
  intros [rest ->]%startswith_spec.
  destruct (lower_ascii_prefix w "Invalid URL" rest eq_refl) as [rest' ->].
  apply str_in_spec. by exists "", (" url" +:+ rest').
Qed.

(** X8.  The two tests of malformed input pass whenever the parser finds
    no supported scheme with a host in their argument, whatever the
    network would do: every message of the validation block has
    "invalid" in its lowered text. *)
Theorem tests_of_invalid_input_pass w :
  (¬ well_formed w "not-a-valid-url" →
     Tests.passes (Tests.test_invalid_url_format_returns_false w)) ∧
  (¬ well_formed w "www.google.com" →
     Tests.passes (Tests.test_missing_protocol_returns_false w)).
Proof.
  assert (∀ url k,
    (∀ explanation, startswith explanation "Invalid URL" = true →
       ∀ tr, (k (false, explanation) tr).1 = Val true) →
    ¬ well_formed w url →
    Tests.passes (bind (check_url w url 5 false) k)) as Hpass.
  { intros url k Hk Hnwf.
    destruct (check_url_branch w url 5 false) as ([result explanation] & Hrun & Hb).
    destruct (Branch_invalid _ _ _ _ _ Hb Hnwf) as [Hflag Hmsg].
    simpl in Hflag, Hmsg. subst result.
    unfold Tests.passes. rewrite (run_bind _ _ _ Hrun). by apply Hk. }
  split; apply Hpass; intros explanation Hmsg%(invalid_in_lower w) tr;
    simpl; by rewrite Hmsg.
Qed.

Lemma tests_of_invalid_input_pass_witness :
  Tests.passes (Tests.test_invalid_url_format_returns_false Guarded.world) ∧
  Tests.passes (Tests.test_missing_protocol_returns_false Guarded.world).
Proof.
  split.
  - apply (proj1 (tests_of_invalid_input_pass Guarded.world)).
    intros (p & Hparse & Hin & _). injection Hparse as <-.
    refine (bool_decide_eq_false_1 _ _ Hin). reflexivity.
  - apply (proj2 (tests_of_invalid_input_pass Guarded.world)).
    intros (p & Hparse & Hin & _). injection Hparse as <-.
    refine (bool_decide_eq_false_1 _ _ Hin). reflexivity.
Defined.

(** A test that lowers one of the fixed messages, all of them ASCII. *)
Ltac lowered_message w :=
  cbv beta iota delta [ret fst];
  rewrite (lower_ascii_text w) by reflexivity; reflexivity.

(** X9.  The DNS test passes for every connection error the request can
    raise, its subclasses and a connect timeout included and whatever the
    text of the error: each of the four messages these get has one of the
    test's keywords in it. *)
Theorem test_network_error_dns_failure_passes w e :
  well_formed w "https://this-domain-does-not-exist-12345.com" →
  requests_get w (request_of "https://this-domain-does-not-exist-12345.com" 5 false)
    = Raise e →
  isinstance e ConnectionError = true →
  Tests.passes (Tests.test_network_error_dns_failure w).
Proof.
  intros Hwf Hget Hc. unfold Tests.passes, Tests.test_network_error_dns_failure.
  pose proof (check_url_well_formed w _ 5 false Hwf) as Hrun.
  destruct (isinstance e Timeout) eqn:Ht.
  { rewrite (fetch_timeout _ _ _ _ e _ Hget Ht) in Hrun.
    rewrite (run_bind _ _ _ (f_equal fst Hrun)). lowered_message w. }
  rewrite (fetch_connection_error _ _ _ _ e _ Hget Ht Hc) in Hrun.
  rewrite (run_bind _ _ _ (f_equal fst Hrun)).
  destruct (names_dns_failure _); [|destruct (str_in _ _)]; lowered_message w.
Qed.

Lemma test_network_error_dns_failure_passes_witness :
  Tests.passes (Tests.test_network_error_dns_failure Sample.world).
Proof.
  eapply (test_network_error_dns_failure_passes Sample.world);
    [sample_well_formed | reflexivity..].
Defined.



(** X11.  When the request ends in a timeout or a connection error, the
    timeout test and the refused-connection test pass unless the error is
    a connection error, not a timeout, whose lowered text has one of the
    name-lookup phrases: the DNS message alone has none of their
    keywords. *)
Theorem tests_of_connection_errors_pass_iff w e1 e2 :
  well_formed w "http://10.255.255.1" →
  requests_get w (request_of "http://10.255.255.1" 5 false) = Raise e1 →
  isinstance e1 Timeout = true ∨ isinstance e1 ConnectionError = true →
  well_formed w "http://localhost:9999" →
  requests_get w (request_of "http://localhost:9999" 5 false) = Raise e2 →
  isinstance e2 Timeout = true ∨ isinstance e2 ConnectionError = true →
  (Tests.passes (Tests.test_connection_timeout_returns_false w) ↔
     isinstance e1 Timeout = true ∨ names_dns_failure (lower w (str e1)) = false) ∧
  (Tests.passes (Tests.test_connection_refused_returns_false w) ↔
     isinstance e2 Timeout = true ∨ names_dns_failure (lower w (str e2)) = false).
Proof.
  assert (∀ url e k,
    well_formed w url →
    requests_get w (request_of url 5 false) = Raise e →
    isinstance e Timeout = true ∨ isinstance e ConnectionError = true →
    (∀ tr, (k (false, "Connection timeout: Request took too long to respond") tr).1
             = Val true) →
    (∀ tr, (k (false, "DNS resolution failed: Unable to resolve domain name") tr).1
             = Val false) →
    (∀ tr, (k (false, "Connection refused: Server is not accepting connections") tr).1
             = Val true) →
    (∀ tr, (k (false, "Network connection error: Unable to connect to server") tr).1
             = Val true) →
    Tests.passes (bind (check_url w url 5 false) k) ↔
    isinstance e Timeout = true ∨ names_dns_failure (lower w (str e)) = false)
    as Hiff.
  { intros url e k Hwf Hget Hclass Htimeout Hdns Hrefused Hnetwork.
    pose proof (check_url_well_formed w url 5 false Hwf) as Hrun.
    unfold Tests.passes. destruct (isinstance e Timeout) eqn:Ht.
    { rewrite (fetch_timeout _ _ _ _ e _ Hget Ht) in Hrun.
      rewrite (run_bind _ _ _ (f_equal fst Hrun)), Htimeout. by split; [left|]. }
    destruct Hclass as [|Hc]; [done|].
    rewrite (fetch_connection_error _ _ _ _ e _ Hget Ht Hc) in Hrun.
    rewrite (run_bind _ _ _ (f_equal fst Hrun)).
    destruct (names_dns_failure _); [|destruct (str_in _ _)].
    - rewrite Hdns. split; [done | by intros [|]].
    - rewrite Hrefused. by split; [right|].
    - rewrite Hnetwork. by split; [right|]. }
  intros Hwf1 Hget1 Hclass1 Hwf2 Hget2 Hclass2.
  split; apply Hiff; try done; intros tr; lowered_message w.
Qed.

Lemma tests_of_connection_errors_pass_iff_witness :
  Tests.passes (Tests.test_connection_timeout_returns_false Sample.world) ∧
  Tests.passes (Tests.test_connection_refused_returns_false Sample.world).
Proof.
  destruct (tests_of_connection_errors_pass_iff Sample.world
      (mkExn ConnectTimeout
         "HTTPConnectionPool(host='10.255.255.1', port=80): Max retries exceeded (connect timeout=5)")
      (mkExn ConnectionError
         "HTTPConnectionPool(host='localhost', port=9999): Max retries exceeded (Caused by NewConnectionError: [Errno 111] Connection refused)"))
    as [Htimeout Hrefused].
  - sample_well_formed.
  - reflexivity.
  - by left.
  - sample_well_formed.
  - reflexivity.
  - by right.
  - split; [apply Htimeout; by left | apply Hrefused; by right].
Defined.

Lemma append_assoc s p q : (s +:+ p) +:+ q = s +:+ p +:+ q.
Proof.
  induction s as [|c s IH]; [done|]. rewrite !append_cons. by rewrite IH.
Qed.

Lemma str_in_append_r sub p s : str_in sub s = true → str_in sub (p +:+ s) = true.
Proof.
  intros (before & after & ->)%str_in_spec. apply str_in_spec.
  exists (p +:+ before), after. by rewrite append_assoc.
Qed.

Lemma redirect_in_lower w target :
  str_in "redirect" (lower w ("Redirects to " +:+ target)) = true.
Proof.
  destruct (lower_ascii_prefix w "Redirects to " target eq_refl) as [rest ->].
  apply str_in_spec. by exists "", ("s to " +:+ rest).
Qed.

(** X12.  The tests of answered requests.  The plain test passes exactly
    when its url passes validation and is answered after a redirect or
    with a status outside [400, 600).  The 404 test passes when the answer
    is a 404 without redirect.  The http-to-https test passes after any
    redirect, wherever it ended; the other redirect test passes after any
    redirect whose final url has "http" in it. *)
Theorem tests_of_responses_pass w :
  (Tests.passes (Tests.test_valid_url_returns_true w) ↔
     well_formed w "https://www.google.com" ∧
     answered_ok w (request_of "https://www.google.com" 5 false)) ∧
  (∀ resp,
     well_formed w "https://www.google.com/this-page-does-not-exist-404" →
     requests_get w
       (request_of "https://www.google.com/this-page-does-not-exist-404" 5 false)
       = Val resp →
     history resp = [] → status_code resp = 404 →
     Tests.passes (Tests.test_404_not_found_returns_false w)) ∧
  (∀ resp,
     well_formed w "http://github.com" →
     requests_get w (request_of "http://github.com" 5 false) = Val resp →
     history resp ≠ [] →
     Tests.passes (Tests.test_redirect_http_to_https w)) ∧
  (∀ resp,
     well_formed w "https://azure.microsoft.com/" →
     requests_get w (request_of "https://azure.microsoft.com/" 5 false) = Val resp →
     history resp ≠ [] → Contains "http" (Resp.url resp) →
     Tests.passes (Tests.test_redirect_returns_true_with_target_url w)).
Proof.
  split; [|split; [|split]].
  - destruct (check_url_total w "https://www.google.com" 5 false)
      as ([result explanation] & Hrun & _ & Hiff & _).
    unfold Tests.passes, Tests.test_valid_url_returns_true.
    rewrite (run_bind _ _ _ Hrun), <- Hiff. simpl.
    destruct result; simpl; split; (done || congruence).
  - intros resp Hwf Hget Hhist Hcode.
    pose proof (check_url_well_formed w _ 5 false Hwf) as Hrun.
    rewrite (fetch_404 _ _ _ _ resp _ Hget Hhist Hcode) in Hrun.
    unfold Tests.passes, Tests.test_404_not_found_returns_false.
    by rewrite (run_bind _ _ _ (f_equal fst Hrun)).
  - intros resp Hwf Hget Hhist.
    pose proof (check_url_well_formed w _ 5 false Hwf) as Hrun.
    rewrite (fetch_redirect _ _ _ _ resp _ Hget Hhist) in Hrun.
    unfold Tests.passes, Tests.test_redirect_http_to_https.
    rewrite (run_bind _ _ _ (f_equal fst Hrun)).
    cbv beta iota delta [ret fst]. by rewrite redirect_in_lower.
  - intros resp Hwf Hget Hhist Hhttp%str_in_spec.
    pose proof (check_url_well_formed w _ 5 false Hwf) as Hrun.
    rewrite (fetch_redirect _ _ _ _ resp _ Hget Hhist) in Hrun.
    unfold Tests.passes, Tests.test_redirect_returns_true_with_target_url.
    rewrite (run_bind _ _ _ (f_equal fst Hrun)).
    cbv beta iota delta [ret fst].
    by rewrite redirect_in_lower, (str_in_append_r _ _ _ Hhttp).
Qed.

Lemma tests_of_responses_pass_witness :
  Tests.passes (Tests.test_redirect_http_to_https Sample.world).
Proof.
  apply (proj1 (proj2 (proj2 (tests_of_responses_pass Sample.world)))
           (mkResponse 200 "https://github.com/" [Sample.moved])).
  - sample_well_formed.
  - reflexivity.
  - discriminate.
Defined.
